(** * tfvm: the Terraform version manager (index.js, sha256Stream.js)

    A shallow embedding of the command-line tool: its path and naming
    helpers, the version store (isInstalled, list, getCurrent, setCurrent,
    uninstall), the signature and checksum verifier (fetchSum) and the
    install pipeline.  Asynchronous functions become computations in a
    state-and-exception monad over a [world]: the file system, the remote
    release server, and the trace of system calls and HTTP requests made.

    The repository holds three revisions of index.js.  What they share is
    modelled once.  Where they differ, the latest revision
    (src/unnamed/part_001) and the one before it (src/unnamed/part_000)
    each have a module; the oldest (src/unnamed/part_002) verifies
    nothing and is otherwise the same as part_000. *)

From Stdlib Require Import Strings.String Strings.Ascii NArith List.
From stdpp Require Import base option list sorting gmap strings pretty.

Local Open Scope N_scope.

(** ** JavaScript values that the program throws *)

(** [SystemError code] is a Node.js error carrying [err.code] (file system
    and socket errors); [Error] and [TypeError] are the built-in
    constructors with their message; [HttpError status] is the rejection
    superagent produces for a response outside 2xx. *)
Inductive exn : Type :=
| SystemError (code : string)
| Error (message : string)
| TypeError (message : string)
| HttpError (status : N).

(** [err.code]: undefined on everything but system errors. *)
Definition err_code (e : exn) : option string :=
  match e with
  | SystemError c => Some c
  | _ => None
  end.

Inductive result (A : Type) : Type :=
| Ok (a : A)
| Throw (e : exn).
Arguments Ok {A} a.
Arguments Throw {A} e.

(** ** The world the program runs in *)

Inductive node : Type :=
| File (content : string) (mode : N)
| Symlink (target : string)
| Dir.

Inductive syscall : Type :=
| SysStat (p : string)
| SysMkdir (p : string)
| SysOpen (p : string)
| SysWrite (p : string)
| SysChmod (p : string) (mode : N)
| SysUnlink (p : string)
| SysSymlink (target p : string)
| SysReadlink (p : string)
| SysReaddir (p : string).

(** How the body of an HTTP response ends: normally, or with a stream
    error (connection reset and the like). *)
Inductive body_end : Type :=
| BodyEnd
| BodyError (e : exn).

(** What the release server answers to a GET: no response at all
    ([ReqError]), or a status line followed by the body in chunks. *)
Inductive exchange : Type :=
| ReqError (e : exn)
| Response (status : N) (body : list string) (fin : body_end).

Inductive event : Type :=
| EvGet (url : string)
| EvAbort (url : string)
| EvSys (c : syscall).

(** [faults] lets the environment fail any system call with an error code
    (EACCES, EPERM, ENOSPC, ...) besides the failures that follow from the
    content of [fs]. *)
Record world : Type := World {
  fs : gmap string node;
  faults : syscall -> option string;
  net : string -> exchange;
  trace : list event
}.

Definition set_fs (m : gmap string node) (w : world) : world :=
  {| fs := m; faults := faults w; net := net w; trace := trace w |}.

Definition log (e : event) (w : world) : world :=
  {| fs := fs w; faults := faults w; net := net w; trace := trace w ++ [e] |}.

(** ** The monad of asynchronous functions *)

Definition M (A : Type) : Type := world -> result A * world.

Definition ret {A} (a : A) : M A := fun w => (Ok a, w).
Definition throw {A} (e : exn) : M A := fun w => (Throw e, w).
Definition lift {A} (r : result A) : M A := fun w => (r, w).

Definition bind {A B} (m : M A) (k : A -> M B) : M B :=
  fun w =>
    match m w with
    | (Ok a, w') => k a w'
    | (Throw e, w') => (Throw e, w')
    end.

(** try { body } catch (err) { handler(err) } *)
Definition try_catch {A} (body : M A) (handler : exn -> M A) : M A :=
  fun w =>
    match body w with
    | (Ok a, w') => (Ok a, w')
    | (Throw e, w') => handler e w'
    end.

(** Promise.all([a, b]): both computations are started, so the effects
    of [b] happen even when [a] rejects; the rejection reported is that of
    the first element of the array that rejected. *)
Definition promise_all2 {A B} (a : M A) (b : M B) : M (A * B) :=
  fun w =>
    let (ra, w1) := a w in
    let (rb, w2) := b w1 in
    match ra, rb with
    | Ok x, Ok y => (Ok (x, y), w2)
    | Throw e, _ => (Throw e, w2)
    | _, Throw e => (Throw e, w2)
    end.

Declare Scope tfvm_scope.
Delimit Scope tfvm_scope with tfvm.
Notation "'do' x <- m ; k" := (bind m (fun x => k))
  (at level 10, x name, m at level 100, k at level 200) : tfvm_scope.
Notation "'do' ' pat <- m ; k" := (bind m (fun x => match x with pat => k end))
  (at level 10, pat pattern, m at level 100, k at level 200) : tfvm_scope.
Notation "'await' m ; k" := (bind m (fun _ => k))
  (at level 10, m at level 100, k at level 200) : tfvm_scope.
Local Open Scope tfvm_scope.

(** ** fs.promises *)

(** The file system is a flat map from paths to nodes.  A call fails as the
    content of the map dictates (ENOENT, EEXIST, ...) or as [faults] says.
    Apart from mkdir, which makes the directories above its path, a call
    does not look at the parents of its path, and no call follows a link:
    a link in the place of a file to write or of a directory to pass
    through is outside the model, and the statements that depend on it
    assume there is none.  Everything else that can go wrong in a real
    file system enters through [faults].  A new file gets mode 0666 (438),
    before any umask. *)

Definition ENOENT : string := "ENOENT".
Definition EPERM : string := "EPERM".
Definition EEXIST : string := "EEXIST".
Definition EISDIR : string := "EISDIR".
Definition ENOTDIR : string := "ENOTDIR".
Definition EINVAL : string := "EINVAL".
Definition EBADF : string := "EBADF".

(** A system call is logged, then fails if the environment says so, and
    otherwise acts on the file system. *)
Definition sys {A} (c : syscall)
    (act : gmap string node -> result A * gmap string node) : M A :=
  fun w =>
    let w1 := log (EvSys c) w in
    match faults w c with
    | Some code => (Throw (SystemError code), w1)
    | None => let (r, m) := act (fs w) in (r, set_fs m w1)
    end.

Definition fs_stat (p : string) : M node :=
  sys (SysStat p) (fun m =>
    match m !! p with
    | Some n => (Ok n, m)
    | None => (Throw (SystemError ENOENT), m)
    end).

(** The directories of mkdir, outermost first: one that is there is
    passed, one that is missing is made, anything else in the way stops
    the call (ENOTDIR on the way, EEXIST at the path itself) and what was
    made before stays. *)
Fixpoint make_dirs (ps : list string) (m : gmap string node)
    : result unit * gmap string node :=
  match ps with
  | [] => (Ok tt, m)
  | p :: rest =>
      match m !! p with
      | None => make_dirs rest (<[p := Dir]> m)
      | Some Dir => make_dirs rest m
      | Some _ =>
          (Throw (SystemError (match rest with [] => EEXIST | _ => ENOTDIR end)), m)
      end
  end.

(** fs.createWriteStream(p): opening with flag 'w' creates the file, or
    truncates the one that is there.  (For a link at [p] Node opens the
    target; the model has no such case, see above.) *)
Definition fs_open_w (p : string) : M unit :=
  sys (SysOpen p) (fun m =>
    match m !! p with
    | None => (Ok tt, <[p := File "" 438]> m)
    | Some (File _ mode) => (Ok tt, <[p := File "" mode]> m)
    | Some _ => (Throw (SystemError EISDIR), m)
    end).

Definition fs_write (p : string) (data : string) : M unit :=
  sys (SysWrite p) (fun m =>
    match m !! p with
    | Some (File c mode) => (Ok tt, <[p := File (c +:+ data) mode]> m)
    | _ => (Throw (SystemError EBADF), m)
    end).

Definition fs_chmod (p : string) (mode : N) : M unit :=
  sys (SysChmod p mode) (fun m =>
    match m !! p with
    | None => (Throw (SystemError ENOENT), m)
    | Some (File c _) => (Ok tt, <[p := File c mode]> m)
    | Some _ => (Ok tt, m)
    end).

Definition fs_unlink (p : string) : M unit :=
  sys (SysUnlink p) (fun m =>
    match m !! p with
    | None => (Throw (SystemError ENOENT), m)
    | Some Dir => (Throw (SystemError EISDIR), m)
    | Some _ => (Ok tt, delete p m)
    end).

Definition fs_symlink (target p : string) : M unit :=
  sys (SysSymlink target p) (fun m =>
    match m !! p with
    | None => (Ok tt, <[p := Symlink target]> m)
    | Some _ => (Throw (SystemError EEXIST), m)
    end).

Definition fs_readlink (p : string) : M string :=
  sys (SysReadlink p) (fun m =>
    match m !! p with
    | None => (Throw (SystemError ENOENT), m)
    | Some (Symlink t) => (Ok t, m)
    | Some _ => (Throw (SystemError EINVAL), m)
    end).

(** ** Strings *)

(** A string of the model is the UTF-8 encoding of the JavaScript string;
    a surrogate that stands alone is encoded like any other code unit of
    its range, in three bytes.  The separators, the names the program
    makes and the characters it splits at are ASCII, so splitting,
    joining and comparing for equality are the same on the bytes and on
    the code units.  Two operations of the program see code units: the
    order of sort and the wildcard of the regular expression. *)

Definition string_drop (n : nat) (s : string) : string :=
  String.substring n (String.length s - n) s.

Fixpoint string_exists (f : ascii -> bool) (s : string) : bool :=
  match s with
  | EmptyString => false
  | String c s' => f c || string_exists f s'
  end.

(** String.prototype.split(sep) for a separator that is not empty: the
    pieces between the occurrences of [sep], found from left to right
    without overlap.  [cur] is the current piece, reversed; [skip] counts
    the characters of a separator still to pass. *)
Fixpoint split_go (sep : string) (skip : nat) (cur s : string) : list string :=
  match s with
  | EmptyString => [String.rev cur]
  | String c s' =>
      match skip with
      | S k => split_go sep k cur s'
      | O =>
          if String.prefix sep s
          then String.rev cur :: split_go sep (String.length sep - 1) "" s'
          else split_go sep 0 (String c cur) s'
      end
  end.

Definition split (sep s : string) : list string := split_go sep 0 "" s.

(** The UTF-16 code units of a string.  One byte below 192 is a unit (a
    continuation byte with no character to continue counts as itself);
    two and three bytes make one unit; the four bytes of a character
    outside the BMP make its two surrogates. *)
Fixpoint units (s : string) : list N :=
  match s with
  | EmptyString => []
  | String b1 s1 =>
      let n1 := N_of_ascii b1 in
      if n1 <? 192 then n1 :: units s1 else
      match s1 with
      | EmptyString => [n1]
      | String b2 s2 =>
          let n2 := N_of_ascii b2 mod 64 in
          if n1 <? 224 then ((n1 - 192) * 64 + n2) :: units s2 else
          match s2 with
          | EmptyString => n1 :: units s1
          | String b3 s3 =>
              let n3 := N_of_ascii b3 mod 64 in
              if n1 <? 240 then ((n1 - 224) * 4096 + n2 * 64 + n3) :: units s3 else
              match s3 with
              | EmptyString => n1 :: units s1
              | String b4 s4 =>
                  let n4 := N_of_ascii b4 mod 64 in
                  let above := (n1 mod 8) * 256 + n2 * 4 + n3 / 16 - 64 in
                  (55296 + above mod 1024) :: (56320 + (n3 mod 16) * 64 + n4) :: units s4
              end
          end
      end
  end.

(** The order of two sequences of code units: the first unit that
    differs decides, a proper prefix comes first. *)
Fixpoint units_leb (a b : list N) : bool :=
  match a, b with
  | [], _ => true
  | _ :: _, [] => false
  | x :: a', y :: b' => (x <? y) || ((x =? y) && units_leb a' b')
  end.

(** What Array.prototype.sort() compares by when it is given no
    comparator. *)
Definition le16 (a b : string) : Prop := Is_true (units_leb (units a) (units b)).

#[global] Instance le16_dec (a b : string) : Decision (le16 a b) :=
  Is_true_dec (units_leb (units a) (units b)).

(** ** The path module *)

Section Path.
(** [win] is true on a win32 host, where both slashes separate and the
    backslash joins.  A drive prefix is handled as a first segment. *)
Variable win : bool.

Definition backslash : ascii := ascii_of_N 92.

Definition path_sep : string := if win then String backslash "" else "/".

Definition is_sep (c : ascii) : bool :=
  Ascii.eqb c "/" || (win && Ascii.eqb c backslash).

Fixpoint segments_go (cur s : string) : list string :=
  match s with
  | EmptyString => [String.rev cur]
  | String c s' =>
      if is_sep c then String.rev cur :: segments_go "" s'
      else segments_go (String c cur) s'
  end.

Definition segments (s : string) : list string := segments_go "" s.

(** One step of normalizeString over the stack of segments kept so far. *)
Definition norm_step (allowAboveRoot : bool) (acc : list string) (seg : string)
    : list string :=
  if String.eqb seg "" || String.eqb seg "." then acc
  else if String.eqb seg ".." then
    match acc with
    | top :: rest =>
        if String.eqb top ".."
        then (if allowAboveRoot then ".." :: acc else acc)
        else rest
    | [] => if allowAboveRoot then [".."] else []
    end
  else seg :: acc.

Definition starts_with_sep (s : string) : bool :=
  match s with
  | String c _ => is_sep c
  | EmptyString => false
  end.

Definition ends_with_sep (s : string) : bool := starts_with_sep (String.rev s).

Definition path_normalize (p : string) : string :=
  if String.eqb p "" then "." else
  let isAbsolute := starts_with_sep p in
  let trailing := ends_with_sep p in
  let segs := rev (fold_left (norm_step (negb isAbsolute)) (segments p) []) in
  let body := String.concat path_sep segs in
  if String.eqb body "" then
    (if isAbsolute then path_sep else if trailing then "." +:+ path_sep else ".")
  else
    (if isAbsolute then path_sep else "") +:+ body +:+
    (if trailing then path_sep else "").

(** path.join(a, b): empty arguments are skipped. *)
Definition path_join (a b : string) : string :=
  let joined :=
    if String.eqb a "" then b
    else if String.eqb b "" then a
    else a +:+ path_sep +:+ b in
  if String.eqb joined "" then "." else path_normalize joined.

Definition is_letter (c : ascii) : bool :=
  let n := N_of_ascii c in
  ((65 <=? n) && (n <=? 90)) || ((97 <=? n) && (n <=? 122)).

Definition strip_drive (s : string) : string :=
  match s with
  | String c (String ":" rest) => if win && is_letter c then rest else s
  | _ => s
  end.

(** path.basename(p): the last segment that is not empty. *)
Definition path_basename (p : string) : string :=
  match filter (fun seg => negb (String.eqb seg "")) (rev (segments (strip_drive p))) with
  | seg :: _ => seg
  | [] => ""
  end.

(** The directories above [p], outermost first: the prefixes of [p] that
    end before a separator.  The root and a drive are there already. *)
Fixpoint ancestors_go (seen s : string) : list string :=
  match s with
  | EmptyString => []
  | String c s' =>
      let above := String.rev seen in
      let further := ancestors_go (String c seen) s' in
      if is_sep c && negb (String.eqb (strip_drive above) "" || starts_with_sep seen)
      then above :: further
      else further
  end.

Definition ancestors (p : string) : list string := ancestors_go "" p.

(** mkdir(p, {recursive: true}): the missing directories above [p] are
    made, then [p]; an existing directory is not an error. *)
Definition fs_mkdir_recursive (p : string) : M unit :=
  sys (SysMkdir p) (make_dirs (ancestors p ++ [p])).

(** The name under which the file at [p] is listed in directory [dir]. *)
Definition entry_of (dir p : string) : option string :=
  let pre := dir +:+ path_sep in
  if String.prefix pre p then
    let name := string_drop (String.length pre) p in
    if String.eqb name "" || string_exists is_sep name then None else Some name
  else None.

Definition fs_readdir (p : string) : M (list string) :=
  sys (SysReaddir p) (fun m =>
    match m !! p with
    | None => (Throw (SystemError ENOENT), m)
    | Some Dir => (Ok (omap (entry_of p) (map fst (map_to_list m))), m)
    | Some _ => (Throw (SystemError ENOTDIR), m)
    end).
End Path.

(** ** The regular expression of getVersion *)

(** The regular expression has no flag: [.] matches one code unit that is
    not a line terminator.  The line terminators are LF, CR, U+2028 and
    U+2029: one byte each for the first two, the three bytes E2 80 A8 and
    E2 80 A9 for the other two. *)
Definition lf_or_cr (c : ascii) : bool :=
  (N_of_ascii c =? 10) || (N_of_ascii c =? 13).

Definition starts_with_terminator (s : string) : bool :=
  match s with
  | EmptyString => false
  | String c rest =>
      lf_or_cr c ||
      match rest with
      | String c2 (String c3 _) =>
          (N_of_ascii c =? 226) && (N_of_ascii c2 =? 128) &&
          ((N_of_ascii c3 =? 168) || (N_of_ascii c3 =? 169))
      | _ => false
      end
  end.

(** A byte 10xxxxxx continues a character; a match begins and ends where
    a character does, or between the two surrogates of a character
    outside the BMP. *)
Definition continuation (c : ascii) : bool :=
  (128 <=? N_of_ascii c) && (N_of_ascii c <? 192).

Definition starts_with_continuation (s : string) : bool :=
  match s with
  | String c _ => continuation c
  | EmptyString => false
  end.

(** The bytes of the character that starts with [c]. *)
Definition char_width (c : ascii) : nat :=
  let n := N_of_ascii c in
  if n <? 192 then 1 else if n <? 224 then 2 else if n <? 240 then 3 else 4.

Fixpoint skip_bytes (n : nat) (s : string) : string :=
  match n, s with
  | O, _ => s
  | S k, String _ s' => skip_bytes k s'
  | S _, EmptyString => EmptyString
  end.

(** The first of the two surrogates of the character F0..F4 [b2] [b3] .. *)
Definition high_surrogate (b1 b2 b3 : ascii) : string :=
  let above :=
    (N_of_ascii b1 mod 8) * 256 + (N_of_ascii b2 mod 64) * 4
    + (N_of_ascii b3 mod 64) / 16 - 64 in
  String (ascii_of_N 237)
    (String (ascii_of_N (160 + (above / 64) mod 16))
       (String (ascii_of_N (128 + above mod 64)) "")).

(** The tail of the pattern, EXE_SUFFIX pasted into the source of the
    regular expression: a dot in it is the wildcard, not a literal dot.
    On a character outside the BMP the wildcard takes the first
    surrogate, so only a second wildcard can follow. *)
Fixpoint match_atoms (pat s : string) : bool :=
  match pat with
  | EmptyString => true
  | String p pat' =>
      match s with
      | EmptyString => false
      | String c s' =>
          if Ascii.eqb p "." then
            if starts_with_terminator s then false
            else match char_width c with
                 | 4%nat =>
                     match pat' with
                     | EmptyString => true
                     | String p2 pat'' =>
                         Ascii.eqb p2 "." && match_atoms pat'' (skip_bytes 3 s')
                     end
                 | width => match_atoms pat' (skip_bytes (width - 1) s')
                 end
          else Ascii.eqb p c && match_atoms pat' s'
      end
  end.

(** The capture that ends between the two surrogates of the character at
    the head of [s]: the wildcard that opens [pat] takes the second. *)
Definition surrogate_split (pat s : string) : option string :=
  match s, pat with
  | String b1 (String b2 (String b3 (String b4 rest))), String p pat' =>
      if (240 <=? N_of_ascii b1) && Ascii.eqb p "." && match_atoms pat' rest
      then Some (high_surrogate b1 b2 b3)
      else None
  | _, _ => None
  end.

(** The group [(.+)] followed by the tail [pat]: greedy, so the longest
    capture after which [pat] matches. *)
Fixpoint capture_plus (pat s : string) : option string :=
  match s with
  | EmptyString => None
  | String c s' =>
      if starts_with_terminator s then None
      else match capture_plus pat s' with
           | Some v => Some (String c v)
           | None =>
               if negb (starts_with_continuation s') && match_atoms pat s'
               then Some (String c "")
               else surrogate_split pat s
           end
  end.

(** new RegExp(`terraform_(.+)${suffix}`).exec(s): the first position at
    which the pattern matches; the result is capture group 1, [None] is
    null. *)
Fixpoint re_exec (suffix s : string) : option string :=
  let here :=
    if String.prefix "terraform_" s
    then capture_plus suffix (string_drop 10 s)
    else None in
  match here with
  | Some v => Some v
  | None =>
      match s with
      | EmptyString => None
      | String _ s' => re_exec suffix s'
      end
  end.

(** ** The host and the libraries the program calls *)

(** unzipper.ParseOne(): a duplex stream.  Each chunk written to it
    yields the bytes it pushes downstream or makes it emit 'error'; the
    flag says that with these bytes the entry is complete and the output
    has ended, which can be before the input has.  The end of the input
    flushes what is left. *)
Record extractor : Type := Extractor {
  ex_state : Type;
  ex_init : ex_state;
  ex_write : ex_state -> string -> result (ex_state * string * bool);
  ex_end : ex_state -> result string
}.

(** What the os, crypto, unzipper and openpgp modules and the module
    ./hashiCorpKey provide, and how the host schedules the streams.

    [openpgp_verify] gives result.signatures, each with the outcome of
    its promise [verified]: resolved with true or false (null, for a key
    that is not known, counts as false under [!verified]), or rejected.

    [finish_lag] is a matter of timing: the number of chunks of the
    response that still pass the hasher between the chunk that completes
    the entry and the 'finish' event of the file. *)
Record host : Type := Host {
  os_platform : string;
  os_arch : string;
  os_homedir : string;
  publicKey : string;
  sha256_hex : string -> string;
  ParseOne : extractor;
  finish_lag : nat;
  pgp_signature : Type;
  pgp_key : Type;
  signature_read : string -> result pgp_signature;
  key_readArmored : string -> result (list pgp_key);
  openpgp_verify :
    string -> pgp_signature -> list pgp_key -> result (list (result bool))
}.

(** ** sha256Stream.js *)

(** The state of the crypto hash object is the input it was fed. *)
Record sha256Stream : Type := Sha256Stream { _hash : string }.

Definition sha256Stream_new : sha256Stream := {| _hash := "" |}.

(** _transform(data, encoding, callback): update the hash, pass the
    chunk on as it came. *)
Definition _transform (st : sha256Stream) (data : string) : sha256Stream * string :=
  ({| _hash := _hash st +:+ data |}, data).

Definition digest (h : host) (st : sha256Stream) : string := sha256_hex h (_hash st).

(** A hasher fed chunk after chunk: its state at the end and what it
    passed on. *)
Fixpoint feed (st : sha256Stream) (chunks : list string) : sha256Stream * list string :=
  match chunks with
  | [] => (st, [])
  | chunk :: rest =>
      let (st', data) := _transform st chunk in
      let (st'', passed) := feed st' rest in
      (st'', data :: passed)
  end.

(** ** superagent *)

(** What an awaited request gives for an exchange: the buffered body of
    a 2xx response (res.text, res.body), a rejection otherwise. *)
Definition received (x : exchange) : result string :=
  match x with
  | ReqError e => Throw e
  | Response status body fin =>
      match fin with
      | BodyError e => Throw e
      | BodyEnd =>
          if (200 <=? status) && (status <? 300)
          then Ok (String.concat "" body)
          else Throw (HttpError status)
      end
  end.

(** await request.get(url) *)
Definition request_get (url : string) : M string :=
  fun w => (received (net w url), log (EvGet url) w).

(** ** What the revisions of index.js share *)

Section Common.
Variable h : host.

Definition win : bool := String.eqb (os_platform h) "win32".

Definition EXE_SUFFIX : string := if win then ".exe" else "".
Definition INSTALL_DIR : string := path_join win (os_homedir h) ".tfvm".
Definition VERSIONS_DIR : string := path_join win INSTALL_DIR "versions".
Definition CURRENT_LINK : string :=
  path_join win INSTALL_DIR ("terraform" +:+ EXE_SUFFIX).

Definition getArch : result string :=
  if String.eqb (os_arch h) "ia32" then Ok "386"
  else if String.eqb (os_arch h) "x64" then Ok "amd64"
  else Throw (Error ("Unsupported architecture: " +:+ os_arch h)).

Definition getPlatform : result string :=
  if String.eqb (os_platform h) "win32" then Ok "windows"
  else if String.eqb (os_platform h) "darwin" then Ok "darwin"
  else if String.eqb (os_platform h) "linux" then Ok "linux"
  else Throw (Error ("Unsupported platform: " +:+ os_platform h)).

Definition getZipName (version : string) : result string :=
  match getPlatform with
  | Throw e => Throw e
  | Ok platform =>
      match getArch with
      | Throw e => Throw e
      | Ok arch =>
          Ok ("terraform_" +:+ version +:+ "_" +:+ platform +:+ "_" +:+ arch +:+ ".zip")
      end
  end.

Definition releases (version : string) : string :=
  "https://releases.hashicorp.com/terraform/" +:+ version +:+ "/".

Definition getExeUrl (version : string) : result string :=
  match getZipName version with
  | Throw e => Throw e
  | Ok zip => Ok (releases version +:+ zip)
  end.

Definition getSumsUrl (version : string) : string :=
  releases version +:+ "terraform_" +:+ version +:+ "_SHA256SUMS".

Definition getSigUrl (version : string) : string :=
  releases version +:+ "terraform_" +:+ version +:+ "_SHA256SUMS.sig".

Definition getPath (version : string) : string :=
  path_join win VERSIONS_DIR ("terraform_" +:+ version +:+ EXE_SUFFIX).

(** re.exec(path.basename(file))[1]: indexing null throws. *)
Definition getVersion (file : string) : result string :=
  match re_exec EXE_SUFFIX (path_basename win file) with
  | Some v => Ok v
  | None => Throw (TypeError "Cannot read property '1' of null")
  end.

Definition isInstalled (version : string) : M bool :=
  try_catch
    (await fs_stat (getPath version); ret true)
    (fun err =>
       if bool_decide (err_code err = Some ENOENT) then ret false else throw err).

Definition getCurrent : M (option string) :=
  try_catch
    (do file <- fs_readlink CURRENT_LINK;
     do v <- lift (getVersion file);
     ret (Some v))
    (fun err =>
       if bool_decide (err_code err = Some ENOENT) then ret None else throw err).

(** files.map(getVersion): the first name that throws ends the map. *)
Fixpoint map_getVersion (files : list string) : result (list string) :=
  match files with
  | [] => Ok []
  | f :: rest =>
      match getVersion f with
      | Throw e => Throw e
      | Ok v =>
          match map_getVersion rest with
          | Throw e => Throw e
          | Ok vs => Ok (v :: vs)
          end
      end
  end.

(** Array.prototype.sort() without a comparator: ascending by UTF-16
    code units. *)
Definition sort (l : list string) : list string := merge_sort le16 l.

Definition list' : M (list string) :=
  try_catch
    (do files <- fs_readdir win VERSIONS_DIR;
     do versions <- lift (map_getVersion files);
     ret (sort versions))
    (fun err =>
       if bool_decide (err_code err = Some ENOENT) then ret [] else throw err).

(** *** The install pipeline: request, hasher, extractor, file *)

Definition write_out (outputPath out : string) : M unit :=
  if String.eqb out "" then ret tt else fs_write outputPath out.

(** The output of the extractor has ended and the file is being
    closed.  Until its 'finish' resolves the promise with
    hashStream.digest('hex'), [lag] more chunks of the response pass the
    hasher and enter the extractor, whose output nobody reads any more;
    an 'error' of the request or of the extractor in that time still
    rejects the promise. *)
Fixpoint finishing (lag : nat) (hashStream : sha256Stream)
    (unzipStream : ex_state (ParseOne h)) (body : list string) (fin : body_end)
    : result string :=
  match lag with
  | O => Ok (digest h hashStream)
  | S lag' =>
      match body with
      | [] =>
          match fin with
          | BodyError e => Throw e
          | BodyEnd =>
              match ex_end (ParseOne h) unzipStream with
              | Throw e => Throw e
              | Ok _ => Ok (digest h hashStream)
              end
          end
      | chunk :: rest =>
          let (hashStream', data) := _transform hashStream chunk in
          match ex_write (ParseOne h) unzipStream data with
          | Throw e => Throw e
          | Ok (unzipStream', _, _) => finishing lag' hashStream' unzipStream' rest fin
          end
      end
  end.

(** req.pipe(hashStream).pipe(unzipStream), unzipStream.pipe(writeStream):
    every chunk of the response goes through the hasher, then into the
    extractor, whose output is appended to the file.  An 'error' of the
    request, the extractor or the file rejects the promise.  The file
    finishes when the output of the extractor ends: with the entry
    complete, or else with the input. *)
Fixpoint pump (outputPath : string) (hashStream : sha256Stream)
    (unzipStream : ex_state (ParseOne h)) (body : list string) (fin : body_end)
    : M string :=
  match body with
  | [] =>
      match fin with
      | BodyError e => throw e
      | BodyEnd =>
          match ex_end (ParseOne h) unzipStream with
          | Throw e => throw e
          | Ok out =>
              await write_out outputPath out;
              ret (digest h hashStream)
          end
      end
  | chunk :: rest =>
      let (hashStream', data) := _transform hashStream chunk in
      match ex_write (ParseOne h) unzipStream data with
      | Throw e => throw e
      | Ok (unzipStream', out, complete) =>
          await write_out outputPath out;
          if complete : bool
          then lift (finishing (finish_lag h) hashStream' unzipStream' rest fin)
          else pump outputPath hashStream' unzipStream' rest fin
      end
  end.

(** What the extractor writes to the file for a body: the output of
    every chunk up to the end of the entry, or else up to the end of the
    input and its flush. *)
Fixpoint extract_all (unzipStream : ex_state (ParseOne h)) (body : list string)
    : result string :=
  match body with
  | [] => ex_end (ParseOne h) unzipStream
  | chunk :: rest =>
      match ex_write (ParseOne h) unzipStream chunk with
      | Throw e => Throw e
      | Ok (unzipStream', out, complete) =>
          if complete : bool then Ok out
          else match extract_all unzipStream' rest with
               | Throw e => Throw e
               | Ok outs => Ok (out +:+ outs)
               end
      end
  end.

(** The chunks of a body that have passed the hasher when the file
    finishes: those up to the end of the entry and [finish_lag] more, or
    else all of them. *)
Fixpoint hashed (unzipStream : ex_state (ParseOne h)) (body : list string)
    : list string :=
  match body with
  | [] => []
  | chunk :: rest =>
      match ex_write (ParseOne h) unzipStream chunk with
      | Ok (unzipStream', _, false) => chunk :: hashed unzipStream' rest
      | _ => chunk :: take (finish_lag h) rest
      end
  end.

(** The promise that install awaits first.  The write stream, and with
    it the file, is created in the 'response' handler when the status is
    200; any other status aborts the request and rejects. *)
Definition download (url outputPath : string) : M string :=
  fun w =>
    let w1 := log (EvGet url) w in
    match net w url with
    | ReqError e => (Throw e, w1)
    | Response status body fin =>
        if status =? 200 then
          (await fs_open_w outputPath;
           pump outputPath sha256Stream_new (ex_init (ParseOne h)) body fin) w1
        else
          (Throw (Error ("Download failed with status " +:+ pretty status)),
           log (EvAbort url) w1)
    end.

(** *** The checksums manifest *)

(** sumsRes.text.split(newline).forEach(row => { const [hash, name] =
    row.split('  '); sumsMap.set(name, hash); }): a row without the
    separator sets the key undefined, here [None]. *)
Definition add_row (sumsMap : gmap (option string) string) (row : string)
    : gmap (option string) string :=
  let cols := split "  " row in
  <[ cols !! 1%nat := default "" (cols !! 0%nat) ]> sumsMap.

Definition newline : string := String (ascii_of_N 10) "".

Definition parse_sums (text : string) : gmap (option string) string :=
  fold_left add_row (split newline text) ∅.

(** openpgp.util.encode_utf8 and openpgp.message.fromBinary: a string of
    the model is the sequence of its UTF-8 bytes, so both keep it as it
    is.  (openpgp.cleartext, which the source avoids, would not.) *)
Definition encode_utf8 (text : string) : string := text.
Definition fromBinary (bytes : string) : string := bytes.

(** fetchSum of the latest revision, downloadSum of the one before it:
    the two bodies are the same.  [None] is undefined. *)
Definition fetchSum (version : string) : M (option string) :=
  do '(sumsRes, sigRes) <-
    promise_all2 (request_get (getSumsUrl version)) (request_get (getSigUrl version));
  do signature <- lift (signature_read h sigRes);
  do publicKeys <- lift (key_readArmored h (publicKey h));
  do signatures <-
    lift (openpgp_verify h (fromBinary (encode_utf8 sumsRes)) signature publicKeys);
  match signatures with
  | [] => throw (TypeError "Cannot read property 'verified' of undefined")
  | first :: _ =>
      do verified <- lift first;
      if negb verified then throw (Error "Signature verification failed")
      else
        let sumsMap := parse_sums sumsRes in
        do zip <- lift (getZipName version);
        ret (sumsMap !! Some zip)
  end.
End Common.

(** ** The latest revision (src/unnamed/part_001) *)

Module Part001.
Section WithHost.
Variable h : host.

Definition install (version : string) : M unit :=
  await fs_mkdir_recursive (win h) (VERSIONS_DIR h);
  let outputPath := getPath h version in
  do actualSum <-
    (do url <- lift (getExeUrl h version); download h url outputPath);
  try_catch
    (do expectedSum <- fetchSum h version;
     if negb (bool_decide (Some actualSum = expectedSum))
     then throw (Error "Hash verification failed")
     else fs_chmod outputPath 493)
    (fun err => await fs_unlink outputPath; throw err).

Definition setCurrent (version : option string) : M unit :=
  await try_catch
    (fs_unlink (CURRENT_LINK h))
    (fun err =>
       if negb (bool_decide (err_code err = Some ENOENT)) then throw err else ret tt);
  try_catch
    (match version with
     | Some v => fs_symlink (getPath h v) (CURRENT_LINK h)
     | None => ret tt
     end)
    (fun err =>
       if bool_decide (err_code err = Some EPERM)
       then throw (Error
         "Insufficient permissions to set new version - retry as an administrator")
       else ret tt).

Definition uninstall (version : string) : M unit :=
  do current <- getCurrent h;
  await (if bool_decide (current = Some version) then setCurrent None else ret tt);
  fs_unlink (getPath h version).

(** *** The command handlers; [argv] is argv.version, [None] a call
    without an argument.  What they print is not modelled. *)

Definition not_installed (version : string) : exn :=
  Error ("Version " +:+ version +:+ " is not installed").

Definition argv_version (argv : option string) : M string :=
  match argv with
  | Some version => ret version
  | None => throw (TypeError "Cannot read property 'version' of undefined")
  end.

Definition useCommand (argv : option string) : M unit :=
  do version <- argv_version argv;
  do installed <- isInstalled h version;
  if negb installed then throw (not_installed version)
  else setCurrent (Some version).

Definition installCommand (argv : option string) : M unit :=
  do version <- argv_version argv;
  do installed <- isInstalled h version;
  if installed then ret tt
  else
    await install version;
    do current <- getCurrent h;
    if bool_decide (current = None) then useCommand None else ret tt.

Definition uninstallCommand (argv : option string) : M unit :=
  do version <- argv_version argv;
  do installed <- isInstalled h version;
  if negb installed then throw (not_installed version)
  else
    await uninstall version;
    await getCurrent h;
    ret tt.
End WithHost.
End Part001.

(** ** The revision before it (src/unnamed/part_000) *)

Module Part000.
Section WithHost.
Variable h : host.

Definition install (version : string) : M unit :=
  do installed <- isInstalled h version;
  if installed then ret tt
  else
    await fs_mkdir_recursive (win h) (VERSIONS_DIR h);
    let outputPath := getPath h version in
    do calculatedSum <-
      (do url <- lift (getExeUrl h version); download h url outputPath);
    do donwloadedSum <- fetchSum h version;
    if negb (bool_decide (Some calculatedSum = donwloadedSum))
    then
      await fs_unlink outputPath;
      throw (Error "Hash verification failed")
    else fs_chmod outputPath 493.

(** !current is true for null and for the empty string. *)
Definition falsy (current : option string) : bool :=
  match current with
  | None => true
  | Some v => String.eqb v ""
  end.

Definition uninstall (version : string) : M unit :=
  do current <- getCurrent h;
  do missing <-
    (if falsy current then ret true
     else do installed <- isInstalled h version; ret (negb installed));
  if missing
  then throw (Error ("Version " +:+ version +:+ " is not installed"))
  else
    do current' <- getCurrent h;
    if bool_decide (Some version = current')
    then throw (Error "Cannot uninstall current version")
    else fs_unlink (getPath h version).
End WithHost.
End Part000.

(** ** Vocabulary of the statements *)

(** The world a computation leaves. *)
Definition after {A} (m : M A) (w : world) : world := snd (m w).

(** The path holds a regular file with this mode. *)
Definition file_at (w : world) (p : string) (mode : N) : Prop :=
  exists content : string, fs w !! p = Some (File content mode).

(** The events a stage appends to the trace are writes to the file. *)
Definition only_writes (w w' : world) (p : string) : Prop :=
  exists n : nat, trace w' = trace w ++ repeat (EvSys (SysWrite p)) n.

(** The handler of install in the latest revision: delete the file, throw
    the error again. *)
Definition cleanup (outputPath : string) (err : exn) : M unit :=
  await fs_unlink outputPath; throw err.

(** ** A host and worlds to run the program on *)

Module Demo.
(** A container format for the examples: the two bytes PK, then the
    entry as it is, closed by a semicolon at the end of a chunk or by the
    end of the input; what follows the semicolon is the directory of the
    archive.  A chunk that starts with an exclamation mark is corrupt. *)
Inductive progress : Type := AtHeader | InEntry | AfterEntry.

Definition closes_entry (data : string) : bool := String.prefix ";" (String.rev data).

Definition entry_bytes (data : string) : string :=
  if closes_entry data then String.substring 0 (String.length data - 1) data else data.

Definition entry_chunk (data : string) : result (progress * string * bool) :=
  Ok (if closes_entry data then AfterEntry else InEntry, entry_bytes data, closes_entry data).

Definition stored : extractor :=
  {| ex_state := progress;
     ex_init := AtHeader;
     ex_write := fun stage data =>
       match stage with
       | AtHeader =>
           if String.prefix "PK" data then entry_chunk (string_drop 2 data)
           else Throw (Error "invalid signature")
       | InEntry =>
           if String.prefix "!" data then Throw (Error "invalid stored block lengths")
           else entry_chunk data
       | AfterEntry =>
           if String.prefix "!" data then Throw (Error "invalid central directory")
           else Ok (AfterEntry, "", false)
       end;
     ex_end := fun stage =>
       match stage with
       | AtHeader => Throw (Error "unexpected end of file")
       | _ => Ok ""
       end |}.

(** A signature names its signer and the message signed: it is verified
    for that message and a key of that signer, rejected for another
    message, and not verified (the key is unknown) for another signer. *)
Definition verdict (message signature key : string) : result bool :=
  if String.eqb signature (key +:+ ":" +:+ message) then Ok true
  else if String.prefix (key +:+ ":") signature
  then Throw (Error "Signed digest did not match")
  else Ok false.

(** The file finishes before another chunk has passed the hasher. *)
Definition host : host :=
  {| os_platform := "linux";
     os_arch := "x64";
     os_homedir := "/home/user";
     publicKey := "hashicorp";
     sha256_hex := fun data => "sha256(" +:+ data +:+ ")";
     ParseOne := stored;
     finish_lag := 0;
     pgp_signature := string;
     pgp_key := string;
     signature_read := fun bytes => Ok bytes;
     key_readArmored := fun armored => Ok [armored];
     openpgp_verify := fun message signature keys =>
       Ok (map (verdict message signature) keys) |}.

Definition no_faults : syscall -> option string := fun _ => None.

Definition archive_url : string :=
  "https://releases.hashicorp.com/terraform/1.0.0/terraform_1.0.0_linux_amd64.zip".
Definition sums_url : string :=
  "https://releases.hashicorp.com/terraform/1.0.0/terraform_1.0.0_SHA256SUMS".
Definition sig_url : string :=
  "https://releases.hashicorp.com/terraform/1.0.0/terraform_1.0.0_SHA256SUMS.sig".

Definition not_found : exchange := Response 404 ["Not Found"] BodyEnd.

(** A release server: the archive, the manifest and its signature. *)
Definition server (archive manifest signature : exchange) : string -> exchange :=
  fun url =>
    if String.eqb url archive_url then archive
    else if String.eqb url sums_url then manifest
    else if String.eqb url sig_url then signature
    else not_found.

Definition manifest : string :=
  "sha256(PKterraform)  terraform_1.0.0_linux_amd64.zip" +:+ newline.

Definition release : string -> exchange :=
  server (Response 200 ["PKterra"; "form"] BodyEnd)
         (Response 200 [manifest] BodyEnd)
         (Response 200 ["hashicorp:" +:+ manifest] BodyEnd).

Definition versions_dir : string := "/home/user/.tfvm/versions".
Definition current_link : string := "/home/user/.tfvm/terraform".
Definition path_1_0_0 : string := "/home/user/.tfvm/versions/terraform_1.0.0".

Definition empty_home : gmap string node :=
  {[ "/home" := Dir; "/home/user" := Dir; "/home/user/.tfvm" := Dir ]}.

(** Version 1.0.0 installed and current. *)
Definition home_1_0_0 : gmap string node :=
  <[ current_link := Symlink path_1_0_0 ]>
    (<[ path_1_0_0 := File "terraform" 493 ]>
       (<[ versions_dir := Dir ]> empty_home)).

Definition world_of (m : gmap string node) (f : syscall -> option string)
    (n : string -> exchange) : world :=
  {| fs := m; faults := f; net := n; trace := [] |}.

(** Nothing installed yet; version 1.0.0 installed and current. *)
Definition fresh : world := world_of empty_home no_faults release.
Definition installed : world := world_of home_1_0_0 no_faults release.

(** The installed file was edited after the install. *)
Definition patched : world :=
  world_of (<[ path_1_0_0 := File "patched locally" 493 ]> home_1_0_0) no_faults release.

(** A second version; a file that is not a version. *)
Definition two_versions : world :=
  world_of (<[ "/home/user/.tfvm/versions/terraform_0.12.1" := File "old" 493 ]> home_1_0_0)
           no_faults release.
Definition foreign_file : world :=
  world_of (<[ "/home/user/.tfvm/versions/README" := File "notes" 420 ]> home_1_0_0)
           no_faults release.

(** The link points at a version whose file is gone. *)
Definition dangling : world :=
  world_of (<[ current_link := Symlink path_1_0_0 ]> (<[ versions_dir := Dir ]> empty_home))
           no_faults release.

(** The versions directory cannot be read; links cannot be created.
    On both hosts access is refused with EACCES. *)
Definition readdir_refused : world :=
  world_of home_1_0_0
    (fun c => match c with SysReaddir _ => Some "EACCES" | _ => None end) release.
Definition symlink_refused : world :=
  world_of (<[ path_1_0_0 := File "terraform" 493 ]> (<[ versions_dir := Dir ]> empty_home))
    (fun c => match c with SysSymlink _ _ => Some "EACCES" | _ => None end) release.

(** The server has no such archive; the connection breaks after the
    first chunk; the second chunk of the archive is corrupt. *)
Definition archive_missing : world :=
  world_of empty_home no_faults
    (server not_found (Response 200 [manifest] BodyEnd)
            (Response 200 ["hashicorp:" +:+ manifest] BodyEnd)).
Definition connection_reset : world :=
  world_of empty_home no_faults
    (server (Response 200 ["PKterra"] (BodyError (SystemError "ECONNRESET")))
            (Response 200 [manifest] BodyEnd)
            (Response 200 ["hashicorp:" +:+ manifest] BodyEnd)).
Definition archive_corrupt : world :=
  world_of empty_home no_faults
    (server (Response 200 ["PKterra"; "!form"] BodyEnd)
            (Response 200 [manifest] BodyEnd)
            (Response 200 ["hashicorp:" +:+ manifest] BodyEnd)).

(** The manifest is signed by somebody else. *)
Definition forged : world :=
  world_of empty_home no_faults
    (server (Response 200 ["PKterra"; "form"] BodyEnd)
            (Response 200 [manifest] BodyEnd)
            (Response 200 ["mallory:" +:+ manifest] BodyEnd)).

(** The manifest was altered after it was signed: it lists the digest of
    another archive under the signature of the original. *)
Definition altered_manifest : string :=
  "sha256(PKmalware)  terraform_1.0.0_linux_amd64.zip" +:+ newline.
Definition altered : world :=
  world_of empty_home no_faults
    (server (Response 200 ["PKmal"; "ware"] BodyEnd)
            (Response 200 [altered_manifest] BodyEnd)
            (Response 200 ["hashicorp:" +:+ manifest] BodyEnd)).

(** An archive whose directory arrives in a chunk of its own, after the
    chunk that completes the entry; the manifest, duly signed, lists the
    digest of the whole archive. *)
Definition directory_manifest : string :=
  "sha256(PKterraform;CENTRALDIR)  terraform_1.0.0_linux_amd64.zip" +:+ newline.
Definition directory_apart : world :=
  world_of empty_home no_faults
    (server (Response 200 ["PKterraform;"; "CENTRALDIR"] BodyEnd)
            (Response 200 [directory_manifest] BodyEnd)
            (Response 200 ["hashicorp:" +:+ directory_manifest] BodyEnd)).

(** A home in which the tool has never run. *)
Definition first_run : world :=
  world_of {[ "/home" := Dir; "/home/user" := Dir ]} no_faults release.

(** A manifest, duly signed, that lists the build of another platform
    only. *)
Definition darwin_manifest : string :=
  "sha256(PKdarwin)  terraform_1.0.0_darwin_amd64.zip" +:+ newline.
Definition other_platform_only : world :=
  world_of empty_home no_faults
    (server (Response 200 ["PKterra"; "form"] BodyEnd)
            (Response 200 [darwin_manifest] BodyEnd)
            (Response 200 ["hashicorp:" +:+ darwin_manifest] BodyEnd)).

(** The world in which install issues its request: after the mkdir of
    the versions directory. *)
Definition after_mkdir (w : world) : world :=
  after (fs_mkdir_recursive false (VERSIONS_DIR host)) w.
End Demo.

(** ** More vocabulary: well-formed names, manifests, footprints *)

(** No line terminator in the string: no LF, CR, U+2028 or U+2029. *)
Fixpoint has_terminator (s : string) : bool :=
  match s with
  | EmptyString => false
  | String _ s' => starts_with_terminator s || has_terminator s'
  end.

Definition plain (s : string) : Prop := has_terminator s = false.

(** [captured v s]: [v] is what a greedy run of wildcards can take from
    the head of [s]: bytes of [s] none of which starts a line
    terminator, ending with a character or with the first surrogate of a
    character outside the BMP. *)
Inductive captured : string -> string -> Prop :=
| captured_split (b1 b2 b3 : ascii) (s : string) :
    captured (high_surrogate b1 b2 b3) s
| captured_last (c : ascii) (s : string) :
    starts_with_terminator (String c s) = false ->
    captured (String c "") (String c s)
| captured_cons (c : ascii) (v s : string) :
    starts_with_terminator (String c s) = false ->
    captured v s -> captured (String c v) (String c s).

(** The name of the file of a version in the versions directory. *)
Definition entry_name (h : host) (version : string) : string :=
  "terraform_" +:+ version +:+ EXE_SUFFIX h.

(** None of the paths holds a symbolic link. *)
Definition no_link_at (w : world) (ps : list string) : Prop :=
  forall (p target : string), p ∈ ps -> fs w !! p <> Some (Symlink target).

(** No path separator of the host in the string. *)
Definition sepfree (win : bool) (s : string) : Prop :=
  string_exists (is_sep win) s = false.

(** A path that ends in the name: the name alone, or the name after a
    separator. *)
Definition ends_in (win : bool) (name p : string) : Prop :=
  p = name \/
  exists (u : string) (c : ascii), is_sep win c = true /\ p = u +:+ String c name.

(** The character does not occur in the string. *)
Definition free_of (s0 : ascii) (a : string) : Prop :=
  string_exists (Ascii.eqb s0) a = false.

(** A digest or a file name of the manifest: no space, no newline. *)
Definition token (s : string) : Prop :=
  free_of " " s /\ free_of (ascii_of_N 10) s.

(** The manifest that lists these (digest, name) rows, one per line. *)
Fixpoint render_sums (rows : list (string * string)) : string :=
  match rows with
  | [] => ""
  | (hash, name) :: rest => (hash +:+ "  " +:+ name) +:+ newline +:+ render_sums rest
  end.

(** sumsMap.set(name, hash) for one row. *)
Definition set_row (sumsMap : gmap (option string) string) (row : string * string)
    : gmap (option string) string :=
  <[Some row.2 := row.1]> sumsMap.

(** Whatever the computation does and however it ends, a path outside
    [ps] holds afterwards what it held before. *)
Definition touches_only {A} (ps : list string) (m : M A) : Prop :=
  forall (w : world) (q : string), q ∉ ps -> fs (snd (m w)) !! q = fs w !! q.

(** ** More hosts and worlds *)

Module Scenes.
(** The example host with another operating system, processor, key
    ring or timing. *)
Definition variant (platform arch : string) (lag : nat)
    (keys : string -> result (list string)) : host :=
  {| os_platform := platform;
     os_arch := arch;
     os_homedir := "/home/user";
     publicKey := publicKey Demo.host;
     sha256_hex := sha256_hex Demo.host;
     ParseOne := ParseOne Demo.host;
     finish_lag := lag;
     pgp_signature := pgp_signature Demo.host;
     pgp_key := pgp_key Demo.host;
     signature_read := signature_read Demo.host;
     key_readArmored := keys;
     openpgp_verify := openpgp_verify Demo.host |}.

(** Hosts the program does not know: the platform; the platform and the
    processor; the processor. *)
Definition solaris : host := variant "sunos" "x64" 0 (key_readArmored Demo.host).
Definition sparc : host := variant "sunos" "sparc" 0 (key_readArmored Demo.host).
Definition arm : host := variant "linux" "arm64" 0 (key_readArmored Demo.host).

(** A host on which one more chunk passes the hasher before the file
    finishes; a host whose key block holds no key; a win32 host. *)
Definition patient : host := variant "linux" "x64" 1 (key_readArmored Demo.host).
Definition keyless : host := variant "linux" "x64" 0 (fun _ => Ok []).
Definition windows : host := variant "win32" "x64" 0 (key_readArmored Demo.host).


(** The link points at a file outside the store. *)
Definition foreign_link : world :=
  Demo.world_of (<[ Demo.current_link := Symlink "/usr/local/bin/tf" ]> Demo.home_1_0_0)
    Demo.no_faults Demo.release.

(** The store of the win32 host, with one version. *)
Definition windows_store : world :=
  Demo.world_of
    (<[ getPath windows "1.0.0" := File "terraform" 493 ]>
       {[ VERSIONS_DIR windows := Dir ]})
    Demo.no_faults Demo.release.

(** A manifest in which a name is listed twice. *)
Definition rows : list (string * string) :=
  [("aaa", "a.zip"); ("bbb", "b.zip"); ("ccc", "a.zip")].
End Scenes.

(** * Properties *)

(** ** Running the primitives *)

Lemma sys_fault {A} (c : syscall) (act : gmap string node -> result A * gmap string node)
    (w : world) (code : string) :
  faults w c = Some code ->
  sys c act w = (Throw (SystemError code), log (EvSys c) w).
Proof. intros H. unfold sys. now rewrite H. Qed.

Lemma sys_act {A} (c : syscall) (act : gmap string node -> result A * gmap string node)
    (w : world) :
  faults w c = None ->
  sys c act w = (fst (act (fs w)), set_fs (snd (act (fs w))) (log (EvSys c) w)).
Proof. intros H. unfold sys. rewrite H. now destruct (act (fs w)). Qed.

(** A system call changes nothing but the file system and the trace. *)
Lemma sys_frame {A} (c : syscall) (act : gmap string node -> result A * gmap string node)
    (w : world) :
  faults (snd (sys c act w)) = faults w /\ net (snd (sys c act w)) = net w /\
  trace (snd (sys c act w)) = trace w ++ [EvSys c].
Proof.
  unfold sys. destruct (faults w c); [easy |]. now destruct (act (fs w)).
Qed.

(** Settling the tests [err.code === '...'] of the handlers. *)
Ltac settle_codes :=
  repeat first
    [ rewrite bool_decide_eq_true_2 by reflexivity
    | rewrite bool_decide_eq_false_2
        by (unfold ENOENT, EPERM; cbn; congruence) ].

(** ** Strings *)

Lemma append_nil_l (s : string) : "" +:+ s = s.
Proof. reflexivity. Qed.

Lemma append_cons (c : ascii) (s t : string) : String c s +:+ t = String c (s +:+ t).
Proof. reflexivity. Qed.

Lemma append_nil_r (s : string) : s +:+ "" = s.
Proof.
  induction s as [| c s IH]; [reflexivity |].
  change (String c (s +:+ "") = String c s). now rewrite IH.
Qed.

Lemma append_assoc (s1 s2 s3 : string) : (s1 +:+ s2) +:+ s3 = s1 +:+ (s2 +:+ s3).
Proof.
  induction s1 as [| c s1 IH]; [reflexivity |].
  change (String c ((s1 +:+ s2) +:+ s3) = String c (s1 +:+ (s2 +:+ s3))).
  now rewrite IH.
Qed.

Lemma concat_cons (chunk : string) (rest : list string) :
  String.concat "" (chunk :: rest) = chunk +:+ String.concat "" rest.
Proof. destruct rest; [symmetry; apply append_nil_r | reflexivity]. Qed.

Lemma eqb_empty (s : string) : String.eqb s "" = true -> s = "".
Proof. now intros H%String.eqb_eq. Qed.

Lemma string_exists_append (f : ascii -> bool) (a b : string) :
  string_exists f (a +:+ b) = string_exists f a || string_exists f b.
Proof.
  induction a as [| c a IH]; [reflexivity |].
  rewrite append_cons. cbn [string_exists]. now rewrite IH, orb_assoc.
Qed.

(** ** Code units and their order *)

Lemma units_leb_total (a b : list N) : units_leb a b = true \/ units_leb b a = true.
Proof.
  revert b. induction a as [| x a IH]; intros [| y b]; cbn; auto.
  destruct (N.ltb_spec x y) as [Hxy | Hxy]; [now left |].
  destruct (N.ltb_spec y x) as [Hyx | Hyx]; [now right |].
  assert (x = y) by lia. subst y. rewrite N.eqb_refl. cbn. apply IH.
Qed.

#[global] Instance le16_total : Total le16.
Proof.
  intros a b. unfold le16.
  destruct (units_leb_total (units a) (units b)) as [H | H]; rewrite H; cbn; auto.
Qed.

Lemma units_leb_trans (a b c : list N) :
  units_leb a b = true -> units_leb b c = true -> units_leb a c = true.
Proof.
  revert b c. induction a as [| x a IH]; intros [| y b] [| z c]; cbn; try easy.
  intros Hab Hbc.
  apply orb_true_iff in Hab as [Hxy%N.ltb_lt | [Hxy%N.eqb_eq Hab]%andb_true_iff];
    apply orb_true_iff in Hbc as [Hyz%N.ltb_lt | [Hyz%N.eqb_eq Hbc]%andb_true_iff].
  - apply orb_true_iff. left. apply N.ltb_lt. lia.
  - apply orb_true_iff. left. apply N.ltb_lt. lia.
  - apply orb_true_iff. left. apply N.ltb_lt. lia.
  - apply orb_true_iff. right. apply andb_true_iff. split.
    + apply N.eqb_eq. lia.
    + now apply (IH b c).
Qed.

#[global] Instance le16_trans : Transitive le16.
Proof.
  intros a b c. unfold le16. intros Hab%Is_true_true Hbc%Is_true_true.
  apply Is_true_true. now apply (units_leb_trans _ (units b)).
Qed.

(** ** Line terminators *)

Lemma terminator_head (c : ascii) (s : string) :
  starts_with_terminator (String c s) = false -> lf_or_cr c = false.
Proof. cbn. now intros [H _]%orb_false_iff. Qed.

Lemma terminator_short (c : ascii) :
  starts_with_terminator (String c "") = lf_or_cr c.
Proof. cbn. apply orb_false_r. Qed.

Lemma terminator_short2 (c a : ascii) :
  starts_with_terminator (String c (String a "")) = lf_or_cr c.
Proof. cbn. apply orb_false_r. Qed.

Lemma terminator_suffix (c : ascii) (v pat : string) :
  pat = "" \/ pat = ".exe" ->
  starts_with_terminator (String c (v +:+ pat)) = starts_with_terminator (String c v).
Proof.
  intros [-> | ->]; [now rewrite append_nil_r |].
  destruct v as [| a [| b v]]; [| | reflexivity].
  - rewrite append_nil_l. cbn. now rewrite andb_false_r.
  - rewrite append_cons, append_nil_l. cbn. now rewrite andb_false_r.
Qed.

Lemma byte_of_N (n : N) : n < 256 -> N_of_ascii (ascii_of_N n) = n.
Proof. apply N_ascii_embedding. Qed.

Lemma high_surrogate_plain (b1 b2 b3 : ascii) : plain (high_surrogate b1 b2 b3).
Proof.
  unfold plain, high_surrogate.
  set (above := _ - 64).
  assert (H2 : (above / 64) mod 16 < 16) by (apply N.mod_upper_bound; lia).
  assert (H3 : above mod 64 < 64) by (apply N.mod_upper_bound; lia).
  revert H2 H3. generalize ((above / 64) mod 16) (above mod 64). intros y x Hy Hx.
  cbn [has_terminator starts_with_terminator]. unfold lf_or_cr.
  rewrite !byte_of_N by lia.
  repeat (rewrite (proj2 (N.eqb_neq _ _)) by lia; cbn [orb andb]).
  reflexivity.
Qed.

(** ** Strings, reversed accumulators *)

Lemma rev_app_rev_app (a c d : string) :
  String.rev_app (String.rev_app a c) d = String.rev_app c (a +:+ d).
Proof.
  revert c d. induction a as [| x a IH]; intros c d; [reflexivity |].
  cbn [String.rev_app]. rewrite IH. reflexivity.
Qed.

Lemma rev_rev_app (a : string) : String.rev (String.rev_app a "") = a.
Proof. unfold String.rev. rewrite rev_app_rev_app. cbn. apply append_nil_r. Qed.

Lemma rev_app_append (u s acc : string) :
  String.rev_app (u +:+ s) acc = String.rev_app s (String.rev_app u acc).
Proof.
  revert acc. induction u as [| x u IH]; intros acc; [reflexivity |].
  change (String.rev_app (u +:+ s) (String x acc) =
          String.rev_app s (String.rev_app u (String x acc))).
  apply IH.
Qed.

Lemma substring_all (s : string) : String.substring 0 (String.length s) s = s.
Proof. induction s as [| c s IH]; cbn; [reflexivity | now rewrite IH]. Qed.

Lemma length_append (p s : string) :
  String.length (p +:+ s) = (String.length p + String.length s)%nat.
Proof.
  induction p as [| c p IH]; [reflexivity |].
  change (S (String.length (p +:+ s)) = S (String.length p + String.length s)).
  now rewrite IH.
Qed.

Lemma string_drop_append (p s : string) : string_drop (String.length p) (p +:+ s) = s.
Proof.
  unfold string_drop. rewrite length_append.
  replace (String.length p + String.length s - String.length p)%nat
    with (String.length s) by lia.
  induction p as [| c p IH]; [apply substring_all |].
  exact IH.
Qed.

Lemma string_drop_terraform (s : string) : string_drop 10 ("terraform_" +:+ s) = s.
Proof. exact (string_drop_append "terraform_" s). Qed.

Lemma prefix_append (p s : string) : String.prefix p (p +:+ s) = true.
Proof.
  induction p as [| c p IH]; [now destruct s |].
  change (String.prefix (String c p) (String c (p +:+ s)) = true).
  cbn [String.prefix]. now destruct (ascii_dec c c).
Qed.

(** ** The regular expression on the names the program makes *)

Lemma capture_plus_captured (pat s v : string) :
  capture_plus pat s = Some v -> captured v s.
Proof.
  revert v. induction s as [| c s IH]; intros v; cbn [capture_plus]; [discriminate |].
  destruct (starts_with_terminator (String c s)) eqn:Hc; [discriminate |].
  destruct (capture_plus pat s) as [v' |].
  - intros [= <-]. apply captured_cons; [assumption | now apply IH].
  - destruct (negb (starts_with_continuation s) && match_atoms pat s).
    + intros [= <-]. now apply captured_last.
    + unfold surrogate_split.
      destruct s as [| b2 [| b3 [| b4 rest]]]; try discriminate.
      destruct pat as [| p pat']; [discriminate |].
      destruct (_ && _); [| discriminate].
      intros [= <-]. apply captured_split.
Qed.

Lemma captured_head (c : ascii) (v s : string) :
  captured v s -> starts_with_terminator (String c s) = false ->
  starts_with_terminator (String c v) = false.
Proof.
  intros Hv Hc. pose proof (terminator_head _ _ Hc) as Hlt.
  destruct Hv as [b1 b2 b3 s | a s Ha | a v s Ha Hv].
  - unfold high_surrogate. cbn. rewrite Hlt. cbn. now rewrite andb_false_r.
  - now rewrite terminator_short2.
  - destruct Hv as [b1 b2 b3 s | b s Hb | b v s Hb Hv].
    + unfold high_surrogate. cbn. rewrite Hlt. cbn. now rewrite andb_false_r.
    + exact Hc.
    + exact Hc.
Qed.

Lemma captured_plain (v s : string) : captured v s -> v <> "" /\ plain v.
Proof.
  induction 1 as [b1 b2 b3 s | c s Hc | c v s Hc Hv [_ IH]].
  - split; [discriminate | apply high_surrogate_plain].
  - split; [discriminate |]. unfold plain. cbn [has_terminator].
    rewrite terminator_short. now rewrite (terminator_head _ _ Hc).
  - split; [discriminate |]. unfold plain in *. cbn [has_terminator].
    now rewrite (captured_head c v s Hv Hc), IH.
Qed.

Lemma capture_plus_token (pat s v : string) :
  capture_plus pat s = Some v -> v <> "" /\ plain v.
Proof. intros H. eapply captured_plain, capture_plus_captured, H. Qed.

Lemma plain_cons (c : ascii) (v : string) :
  plain (String c v) -> starts_with_terminator (String c v) = false /\ plain v.
Proof. unfold plain. cbn [has_terminator]. now intros H%orb_false_iff. Qed.

(** The suffix is one of the two the program has. *)
Lemma capture_plus_whole (pat v : string) :
  pat = "" \/ pat = ".exe" ->
  v <> "" -> plain v ->
  capture_plus pat (v +:+ pat) = Some v.
Proof.
  intros Hpat. induction v as [| c v IH]; intros Hne Hplain; [congruence |].
  apply plain_cons in Hplain as [Hc Hv].
  rewrite append_cons. cbn [capture_plus].
  rewrite (terminator_suffix c v pat Hpat), Hc.
  destruct v as [| d v].
  - rewrite append_nil_l. now destruct Hpat as [-> | ->].
  - now rewrite IH.
Qed.

Lemma re_exec_token (suffix s v : string) :
  re_exec suffix s = Some v -> v <> "" /\ plain v.
Proof.
  induction s as [| c s IH]; cbn [re_exec].
  - destruct (String.prefix "terraform_" ""); [| discriminate].
    destruct (capture_plus suffix (string_drop 10 "")) eqn:Hcap; [| discriminate].
    intros [= <-]. eapply capture_plus_token; eassumption.
  - destruct (String.prefix "terraform_" (String c s)).
    + destruct (capture_plus suffix (string_drop 10 (String c s))) eqn:Hcap.
      * intros [= <-]. eapply capture_plus_token; eassumption.
      * exact IH.
    + exact IH.
Qed.

Lemma re_exec_name (suffix v : string) :
  suffix = "" \/ suffix = ".exe" ->
  v <> "" -> plain v ->
  re_exec suffix ("terraform_" +:+ v +:+ suffix) = Some v.
Proof.
  intros Hsuffix Hne Hplain.
  assert (Hhere : (if String.prefix "terraform_" ("terraform_" +:+ v +:+ suffix)
                   then capture_plus suffix (string_drop 10 ("terraform_" +:+ v +:+ suffix))
                   else None) = Some v).
  { rewrite prefix_append, string_drop_terraform.
    now apply capture_plus_whole. }
  change ("terraform_" +:+ v +:+ suffix)
    with (String "t" ("erraform_" +:+ v +:+ suffix)) in *.
  cbn [re_exec]. now rewrite Hhere.
Qed.

(** ** path.join and path.basename on a file name *)

Lemma eqb_append_cons (u : string) (c : ascii) (s : string) :
  String.eqb (u +:+ String c s) "" = false.
Proof. now destruct u. Qed.

Section PathProperties.
Variable win : bool.

Lemma is_sep_inv (c : ascii) :
  is_sep win c = true -> is_letter c = false /\ c <> ":"%char.
Proof.
  unfold is_sep. intros [H | H]%orb_true_iff.
  - apply Ascii.eqb_eq in H. subst c. now split.
  - apply andb_true_iff in H as [_ H]. apply Ascii.eqb_eq in H. subst c. now split.
Qed.

Lemma path_sep_char : exists c : ascii, path_sep win = String c "" /\ is_sep win c = true.
Proof.
  unfold path_sep, is_sep. destruct win; eexists; split; reflexivity.
Qed.

Lemma sepfree_cons (c : ascii) (s : string) :
  sepfree win (String c s) -> is_sep win c = false /\ sepfree win s.
Proof. unfold sepfree. cbn [string_exists]. now intros H%orb_false_iff. Qed.

Lemma segments_go_plain (name cur : string) :
  sepfree win name ->
  segments_go win cur name = [String.rev (String.rev_app name cur)].
Proof.
  revert cur. induction name as [| c name IH]; intros cur Hfree; [reflexivity |].
  apply sepfree_cons in Hfree as [Hc Hfree].
  cbn [segments_go String.rev_app]. rewrite Hc. now apply IH.
Qed.

Lemma segments_plain (name : string) : sepfree win name -> segments win name = [name].
Proof.
  intros Hfree. unfold segments. rewrite segments_go_plain by assumption.
  now rewrite rev_rev_app.
Qed.

Lemma segments_go_snoc (u : string) (c : ascii) (name cur : string) :
  is_sep win c = true -> sepfree win name ->
  segments_go win cur (u +:+ String c name) = segments_go win cur u ++ [name].
Proof.
  intros Hc Hfree. revert cur. induction u as [| x u IH]; intros cur.
  - rewrite append_nil_l. cbn [segments_go]. rewrite Hc.
    fold (segments win name). now rewrite segments_plain.
  - rewrite append_cons. cbn [segments_go].
    destruct (is_sep win x); [now rewrite IH | apply IH].
Qed.

Lemma segments_snoc (u : string) (c : ascii) (name : string) :
  is_sep win c = true -> sepfree win name ->
  segments win (u +:+ String c name) = segments win u ++ [name].
Proof. apply segments_go_snoc. Qed.

Lemma concat_snoc (sep : string) (xs : list string) (name : string) :
  String.concat sep (xs ++ [name]) =
  match xs with
  | [] => name
  | _ => String.concat sep xs +:+ sep +:+ name
  end.
Proof.
  induction xs as [| x xs IH]; [reflexivity |].
  destruct xs as [| y xs]; [reflexivity |].
  change (x +:+ sep +:+ String.concat sep ((y :: xs) ++ [name]) =
          (x +:+ sep +:+ String.concat sep (y :: xs)) +:+ sep +:+ name).
  rewrite IH. now rewrite !append_assoc.
Qed.

Lemma starts_rev_app (name acc : string) :
  name <> "" -> sepfree win name ->
  starts_with_sep win (String.rev_app name acc) = false.
Proof.
  revert acc. induction name as [| c name IH]; intros acc Hne Hfree; [congruence |].
  apply sepfree_cons in Hfree as [Hc Hfree]. cbn [String.rev_app].
  destruct name as [| d name]; [exact Hc |].
  now apply IH.
Qed.

Lemma ends_in_segments (name p : string) :
  sepfree win name -> ends_in win name p ->
  exists xs : list string, segments win p = xs ++ [name].
Proof.
  intros Hfree [-> | (u & c & Hc & ->)].
  - exists []. now apply segments_plain.
  - exists (segments win u). now apply segments_snoc.
Qed.

Lemma ends_in_trailing (name p : string) :
  name <> "" -> sepfree win name -> ends_in win name p -> ends_with_sep win p = false.
Proof.
  intros Hne Hfree [-> | (u & c & Hc & ->)]; unfold ends_with_sep, String.rev.
  - now apply starts_rev_app.
  - rewrite rev_app_append. cbn [String.rev_app]. now apply starts_rev_app.
Qed.

Lemma normalize_ends_in (name p : string) :
  name <> "" -> name <> "." -> name <> ".." -> sepfree win name ->
  ends_in win name p -> ends_in win name (path_normalize win p).
Proof.
  intros Hne Hdot Hdots Hfree Hp.
  destruct (ends_in_segments _ _ Hfree Hp) as [xs Hsegs].
  pose proof (ends_in_trailing _ _ Hne Hfree Hp) as Htrail.
  unfold path_normalize.
  assert (Hnonempty : String.eqb p "" = false).
  { destruct Hp as [-> | (u & c & _ & ->)].
    - now apply String.eqb_neq.
    - apply eqb_append_cons. }
  rewrite Hnonempty, Htrail, Hsegs, fold_left_app. cbn [fold_left].
  set (stack := fold_left (norm_step (negb (starts_with_sep win p))) xs []).
  assert (Hstep : norm_step (negb (starts_with_sep win p)) stack name = name :: stack).
  { unfold norm_step.
    apply String.eqb_neq in Hne, Hdot, Hdots. now rewrite Hne, Hdot, Hdots. }
  rewrite Hstep. cbn [rev]. fold (rev stack). rewrite concat_snoc.
  destruct path_sep_char as (c & Hsep & Hc). rewrite Hsep.
  destruct (rev stack) as [| y ys].
  - apply String.eqb_neq in Hne. rewrite Hne, append_nil_r.
    destruct (starts_with_sep win p).
    + right. exists "", c. now split.
    + now left.
  - change (String.concat (String c "") (y :: ys) +:+ String c "" +:+ name)
      with (String.concat (String c "") (y :: ys) +:+ String c name).
    rewrite eqb_append_cons, append_nil_r. right.
    destruct (starts_with_sep win p).
    + exists (String c "" +:+ String.concat (String c "") (y :: ys)), c.
      split; [assumption |]. now rewrite append_assoc.
    + exists (String.concat (String c "") (y :: ys)), c. now split.
Qed.

Lemma join_ends_in (a name : string) :
  name <> "" -> name <> "." -> name <> ".." -> sepfree win name ->
  ends_in win name (path_join win a name).
Proof.
  intros Hne Hdot Hdots Hfree. unfold path_join.
  assert (Hjoined : ends_in win name
            (if String.eqb a "" then name
             else if String.eqb name "" then a else a +:+ path_sep win +:+ name)).
  { destruct (String.eqb a ""); [now left |].
    apply String.eqb_neq in Hne. rewrite Hne.
    destruct path_sep_char as (c & -> & Hc). right. now exists a, c. }
  set (joined := if String.eqb a "" then name else _) in *.
  assert (Hnonempty : String.eqb joined "" = false).
  { destruct Hjoined as [-> | (u & c & _ & ->)].
    - now apply String.eqb_neq.
    - apply eqb_append_cons. }
  rewrite Hnonempty. now apply normalize_ends_in.
Qed.

Lemma strip_drive_ends_in (name p : string) :
  strip_drive win name = name -> ends_in win name p -> ends_in win name (strip_drive win p).
Proof.
  intros Hkeep [-> | (u & c & Hc & ->)].
  - rewrite Hkeep. now left.
  - destruct (is_sep_inv c Hc) as [Hletter Hcolon].
    destruct u as [| x [| y u]].
    + rewrite append_nil_l. unfold strip_drive.
      destruct name as [| d name]; [right; now exists "", c |].
      destruct (Ascii.eqb_spec d ":") as [-> | Hd].
      * rewrite Hletter, andb_false_r. right. now exists "", c.
      * right. exists "", c. split; [assumption |].
        destruct d as [[] [] [] [] [] [] [] []]; try reflexivity; congruence.
    + right. exists (String x ""), c. split; [assumption |].
      change (String x "" +:+ String c name) with (String x (String c name)).
      unfold strip_drive.
      destruct c as [[] [] [] [] [] [] [] []]; try reflexivity; congruence.
    + change (String x (String y u) +:+ String c name)
        with (String x (String y (u +:+ String c name))).
      unfold strip_drive.
      destruct (Ascii.eqb_spec y ":") as [-> | Hy].
      * destruct (win && is_letter x).
        -- right. now exists u, c.
        -- right. now exists (String x (String ":" u)), c.
      * right. exists (String x (String y u)), c. split; [assumption |].
        destruct y as [[] [] [] [] [] [] [] []]; try reflexivity; congruence.
Qed.

Lemma basename_ends_in (name p : string) :
  name <> "" -> sepfree win name -> strip_drive win name = name ->
  ends_in win name p -> path_basename win p = name.
Proof.
  intros Hne Hfree Hkeep Hp. unfold path_basename.
  destruct (ends_in_segments _ _ Hfree (strip_drive_ends_in _ _ Hkeep Hp)) as [xs ->].
  rewrite rev_app_distr. cbn [rev app].
  apply String.eqb_neq in Hne.
  rewrite filter_cons_True; [reflexivity |]. now rewrite Hne.
Qed.

(** path.basename(path.join(dir, name)) is the name. *)
Lemma basename_join (dir name : string) :
  name <> "" -> name <> "." -> name <> ".." -> sepfree win name ->
  strip_drive win name = name ->
  path_basename win (path_join win dir name) = name.
Proof.
  intros Hne Hdot Hdots Hfree Hkeep.
  apply basename_ends_in; try assumption. now apply join_ends_in.
Qed.
End PathProperties.

(** ** Names and tokens *)

Section Names.
Variable h : host.

Lemma suffix_pattern :
  (EXE_SUFFIX h = "" \/ EXE_SUFFIX h = ".exe") /\ sepfree (win h) (EXE_SUFFIX h).
Proof. unfold EXE_SUFFIX, sepfree. destruct (win h); split; auto. Qed.

Lemma entry_name_sepfree (version : string) :
  sepfree (win h) version -> sepfree (win h) (entry_name h version).
Proof.
  intros Hfree. destruct suffix_pattern as (_ & Hsuffix).
  unfold entry_name, sepfree in *. rewrite !string_exists_append, Hfree, Hsuffix.
  unfold is_sep. now destruct (win h).
Qed.

(** The base name of an install path is the file name made for the
    version. *)
Lemma getPath_basename (version : string) :
  sepfree (win h) version ->
  path_basename (win h) (getPath h version) = entry_name h version.
Proof.
  intros Hfree. unfold getPath. apply basename_join.
  - discriminate.
  - discriminate.
  - discriminate.
  - now apply entry_name_sepfree.
  - reflexivity.
Qed.

(** A name of the versions directory is its own base name. *)
Lemma entry_name_basename (version : string) :
  sepfree (win h) version ->
  path_basename (win h) (entry_name h version) = entry_name h version.
Proof.
  intros Hfree. apply basename_ends_in.
  - discriminate.
  - now apply entry_name_sepfree.
  - reflexivity.
  - now left.
Qed.

(** The regular expression gives back the version of a name. *)
Lemma re_exec_entry_name (version : string) :
  version <> "" -> plain version ->
  re_exec (EXE_SUFFIX h) (entry_name h version) = Some version.
Proof.
  intros Hne Hplain. destruct suffix_pattern as (Hsuffix & _).
  now apply re_exec_name.
Qed.
End Names.

(** ** The version store: list *)

Section ListProperties.
Variable h : host.

Lemma list'_unfold (w : world) :
  list' h w =
  let (r, w') := fs_readdir (win h) (VERSIONS_DIR h) w in
  let handler e :=
    if bool_decide (err_code e = Some ENOENT) then (Ok [], w') else (Throw e, w') in
  match r with
  | Ok files =>
      match map_getVersion h files with
      | Ok versions => (Ok (sort versions), w')
      | Throw e => handler e
      end
  | Throw e => handler e
  end.
Proof.
  unfold list', try_catch, bind, lift, ret, throw.
  destruct (fs_readdir _ _ w) as [[files | e] w'].
  - destruct (map_getVersion h files) as [versions | e]; [reflexivity |].
    now destruct (bool_decide _).
  - now destruct (bool_decide _).
Qed.

Lemma map_getVersion_Forall2 (files versions : list string) :
  Forall2 (fun f v => getVersion h f = Ok v) files versions ->
  map_getVersion h files = Ok versions.
Proof.
  induction 1 as [| f v files versions Hf _ IH]; [reflexivity |].
  cbn. now rewrite Hf, IH.
Qed.

Lemma getVersion_null (f : string) :
  re_exec (EXE_SUFFIX h) (path_basename (win h) f) = None ->
  getVersion h f = Throw (TypeError "Cannot read property '1' of null").
Proof. intros H. unfold getVersion. now rewrite H. Qed.

Lemma getVersion_throws (f : string) (e : exn) :
  getVersion h f = Throw e -> e = TypeError "Cannot read property '1' of null".
Proof. unfold getVersion. destruct (re_exec _ _); congruence. Qed.

Lemma map_getVersion_null (files : list string) (f : string) :
  f ∈ files ->
  re_exec (EXE_SUFFIX h) (path_basename (win h) f) = None ->
  map_getVersion h files = Throw (TypeError "Cannot read property '1' of null").
Proof.
  intros Hin Hnull. induction Hin as [f rest | f g rest _ IH]; cbn.
  - now rewrite (getVersion_null _ Hnull).
  - destruct (getVersion h g) as [v | e] eqn:Hg.
    + now rewrite (IH Hnull).
    + now rewrite (getVersion_throws _ _ Hg).
Qed.

Lemma readdir_absent (w : world) :
  fs w !! VERSIONS_DIR h = None ->
  faults w (SysReaddir (VERSIONS_DIR h)) = None ->
  fst (fs_readdir (win h) (VERSIONS_DIR h) w) = Throw (SystemError ENOENT).
Proof.
  intros Hnone Hok. unfold fs_readdir. rewrite sys_act by assumption.
  now rewrite Hnone.
Qed.

Lemma getVersion_entry_name (version : string) :
  version <> "" -> plain version -> sepfree (win h) version ->
  getVersion h (entry_name h version) = Ok version.
Proof.
  intros Hne Hplain Hfree. unfold getVersion.
  now rewrite entry_name_basename, re_exec_entry_name.
Qed.

(** C9. list() reads the versions directory, takes the version token of
    each file name and returns the tokens in ascending order of their
    UTF-16 code units: a permutation of the tokens in which each comes
    before all that follow it.  The token of a name
    terraform_<v><suffix> is v, whole and without the suffix.  When the
    directory does not exist the result is the empty sequence; every
    other error of the directory read is thrown to the caller as it
    is. *)
Theorem list_sorted_tokens (w : world) :
  (forall (files versions : list string) (w' : world),
      fs_readdir (win h) (VERSIONS_DIR h) w = (Ok files, w') ->
      Forall2 (fun f v => getVersion h f = Ok v) files versions ->
      list' h w = (Ok (sort versions), w') /\
      StronglySorted le16 (sort versions) /\
      sort versions ≡ₚ versions) /\
  (forall (versions : list string) (w' : world),
      fs_readdir (win h) (VERSIONS_DIR h) w = (Ok (map (entry_name h) versions), w') ->
      Forall (fun v => v <> "" /\ plain v /\ sepfree (win h) v) versions ->
      list' h w = (Ok (sort versions), w')) /\
  (fs w !! VERSIONS_DIR h = None ->
   faults w (SysReaddir (VERSIONS_DIR h)) = None ->
   fst (list' h w) = Ok []) /\
  (forall (e : exn) (w' : world),
      fs_readdir (win h) (VERSIONS_DIR h) w = (Throw e, w') ->
      err_code e <> Some ENOENT ->
      list' h w = (Throw e, w')).
Proof.
  split; [| split; [| split]].
  - intros files versions w' Hdir Hall.
    rewrite list'_unfold, Hdir, (map_getVersion_Forall2 _ _ Hall).
    split; [reflexivity |]. split.
    + apply StronglySorted_merge_sort; apply _.
    + apply merge_sort_Permutation.
  - intros versions w' Hdir Hall.
    rewrite list'_unfold, Hdir.
    assert (Htokens : map_getVersion h (map (entry_name h) versions) = Ok versions).
    { clear Hdir.
      induction Hall as [| v versions (Hne & Hplain & Hfree) _ IH]; [reflexivity |].
      cbn [map map_getVersion].
      now rewrite (getVersion_entry_name v Hne Hplain Hfree), IH. }
    now rewrite Htokens.
  - intros Hnone Hok. pose proof (readdir_absent w Hnone Hok) as Hdir.
    rewrite list'_unfold.
    destruct (fs_readdir _ _ w) as [r w']. cbn in Hdir. subst r.
    reflexivity.
  - intros e w' Hdir Hcode. rewrite list'_unfold, Hdir. cbn.
    now rewrite bool_decide_eq_false_2.
Qed.

(** C10. When the versions directory holds a file whose base name the
    regular expression of getVersion does not match, list() throws the
    TypeError of indexing null: the handler lets it through because it
    has no code ENOENT. *)
Theorem list_throws_on_foreign_file (w w' : world) (files : list string) (f : string) :
  fs_readdir (win h) (VERSIONS_DIR h) w = (Ok files, w') ->
  f ∈ files ->
  re_exec (EXE_SUFFIX h) (path_basename (win h) f) = None ->
  list' h w = (Throw (TypeError "Cannot read property '1' of null"), w').
Proof.
  intros Hdir Hin Hnull.
  rewrite list'_unfold, Hdir, (map_getVersion_null _ _ Hin Hnull).
  reflexivity.
Qed.
End ListProperties.

(** ** The version store: isInstalled, getCurrent, setCurrent, uninstall *)

Section StoreProperties.
Variable h : host.

Lemma fs_stat_present (w : world) (p : string) (n : node) :
  faults w (SysStat p) = None -> fs w !! p = Some n ->
  fs_stat p w = (Ok n, log (EvSys (SysStat p)) w).
Proof.
  intros Hok Hp. unfold fs_stat. rewrite sys_act by assumption.
  now rewrite Hp.
Qed.

Lemma fs_stat_absent (w : world) (p : string) :
  faults w (SysStat p) = None -> fs w !! p = None ->
  fs_stat p w = (Throw (SystemError ENOENT), log (EvSys (SysStat p)) w).
Proof.
  intros Hok Hp. unfold fs_stat. rewrite sys_act by assumption.
  now rewrite Hp.
Qed.

Lemma fs_stat_world (w : world) (p : string) :
  snd (fs_stat p w) = log (EvSys (SysStat p)) w.
Proof.
  unfold fs_stat, sys. destruct (faults w _); [reflexivity |].
  now destruct (fs w !! p).
Qed.

Lemma fs_readlink_symlink (w : world) (p target : string) :
  faults w (SysReadlink p) = None -> fs w !! p = Some (Symlink target) ->
  fs_readlink p w = (Ok target, log (EvSys (SysReadlink p)) w).
Proof.
  intros Hok Hp. unfold fs_readlink. rewrite sys_act by assumption.
  now rewrite Hp.
Qed.

Lemma fs_readlink_absent (w : world) (p : string) :
  faults w (SysReadlink p) = None -> fs w !! p = None ->
  fs_readlink p w = (Throw (SystemError ENOENT), log (EvSys (SysReadlink p)) w).
Proof.
  intros Hok Hp. unfold fs_readlink. rewrite sys_act by assumption.
  now rewrite Hp.
Qed.

Lemma fs_unlink_present (w : world) (p : string) (n : node) :
  faults w (SysUnlink p) = None -> fs w !! p = Some n -> n <> Dir ->
  fs_unlink p w = (Ok tt, set_fs (delete p (fs w)) (log (EvSys (SysUnlink p)) w)).
Proof.
  intros Hok Hp Hn. unfold fs_unlink. rewrite sys_act by assumption.
  rewrite Hp. now destruct n.
Qed.

Lemma fs_unlink_absent (w : world) (p : string) :
  faults w (SysUnlink p) = None -> fs w !! p = None ->
  fs_unlink p w = (Throw (SystemError ENOENT), log (EvSys (SysUnlink p)) w).
Proof.
  intros Hok Hp. unfold fs_unlink. rewrite sys_act by assumption.
  now rewrite Hp.
Qed.

(** isInstalled answers true only after a stat that succeeded, and the
    stat is all it does. *)
Lemma isInstalled_world (w : world) (version : string) (b : bool) :
  fst (isInstalled h version w) = Ok b ->
  isInstalled h version w = (Ok b, log (EvSys (SysStat (getPath h version))) w).
Proof.
  unfold isInstalled, try_catch, bind, ret, throw.
  pose proof (fs_stat_world w (getPath h version)) as Hw.
  destruct (fs_stat (getPath h version) w) as [[n | e] w1]; cbn in Hw; subst w1.
  - cbn. congruence.
  - destruct (bool_decide _); cbn; congruence.
Qed.

Lemma isInstalled_false (w : world) (version : string) :
  faults w (SysStat (getPath h version)) = None ->
  fs w !! getPath h version = None ->
  isInstalled h version w = (Ok false, log (EvSys (SysStat (getPath h version))) w).
Proof.
  intros Hok Hp. unfold isInstalled, try_catch, bind.
  now rewrite (fs_stat_absent _ _ Hok Hp).
Qed.

Lemma getCurrent_absent (w : world) :
  faults w (SysReadlink (CURRENT_LINK h)) = None ->
  fs w !! CURRENT_LINK h = None ->
  getCurrent h w = (Ok None, log (EvSys (SysReadlink (CURRENT_LINK h))) w).
Proof.
  intros Hok Hp. unfold getCurrent, try_catch, bind.
  now rewrite (fs_readlink_absent _ _ Hok Hp).
Qed.

Lemma getCurrent_symlink (w : world) (target version : string) :
  faults w (SysReadlink (CURRENT_LINK h)) = None ->
  fs w !! CURRENT_LINK h = Some (Symlink target) ->
  getVersion h target = Ok version ->
  getCurrent h w = (Ok (Some version), log (EvSys (SysReadlink (CURRENT_LINK h))) w).
Proof.
  intros Hok Hp Hv. unfold getCurrent, try_catch, bind, lift, ret.
  now rewrite (fs_readlink_symlink _ _ _ Hok Hp), Hv.
Qed.

(** setCurrent(null) on a link that is there: the link is removed. *)
Lemma setCurrent_null_present (w : world) (n : node) :
  faults w (SysUnlink (CURRENT_LINK h)) = None ->
  fs w !! CURRENT_LINK h = Some n -> n <> Dir ->
  Part001.setCurrent h None w =
  (Ok tt, set_fs (delete (CURRENT_LINK h) (fs w))
                 (log (EvSys (SysUnlink (CURRENT_LINK h))) w)).
Proof.
  intros Hok Hp Hn. unfold Part001.setCurrent, try_catch, bind, ret.
  now rewrite (fs_unlink_present _ _ _ Hok Hp Hn).
Qed.

(** The first handler of setCurrent lets "already absent" pass. *)
Lemma setCurrent_null_absent (w : world) :
  faults w (SysUnlink (CURRENT_LINK h)) = None ->
  fs w !! CURRENT_LINK h = None ->
  Part001.setCurrent h None w = (Ok tt, log (EvSys (SysUnlink (CURRENT_LINK h))) w).
Proof.
  intros Hok Hp. unfold Part001.setCurrent, try_catch, bind, ret.
  now rewrite (fs_unlink_absent _ _ Hok Hp).
Qed.

(** A denied link creation (EPERM) becomes the message that asks for
    elevated rights. *)
Lemma setCurrent_EPERM (w : world) (version : string) :
  faults w (SysUnlink (CURRENT_LINK h)) = None ->
  fs w !! CURRENT_LINK h = None ->
  faults w (SysSymlink (getPath h version) (CURRENT_LINK h)) = Some EPERM ->
  fst (Part001.setCurrent h (Some version) w) =
  Throw (Error "Insufficient permissions to set new version - retry as an administrator").
Proof.
  intros Hok Hp Hdenied. unfold Part001.setCurrent, try_catch, bind, ret.
  rewrite (fs_unlink_absent _ _ Hok Hp). cbn. settle_codes. cbn.
  unfold fs_symlink. rewrite sys_fault with (code := EPERM) by exact Hdenied.
  settle_codes. reflexivity.
Qed.

(** C7. At the failing input: when the symlink call fails with a code
    other than EPERM (the link itself was absent or removable), the
    second handler of setCurrent drops the error; setCurrent returns
    normally and no link exists afterwards. *)
Theorem setCurrent_swallows_link_errors (w : world) (version code : string) :
  faults w (SysUnlink (CURRENT_LINK h)) = None ->
  fs w !! CURRENT_LINK h <> Some Dir ->
  faults w (SysSymlink (getPath h version) (CURRENT_LINK h)) = Some code ->
  code <> EPERM ->
  fst (Part001.setCurrent h (Some version) w) = Ok tt /\
  fs (snd (Part001.setCurrent h (Some version) w)) !! CURRENT_LINK h = None.
Proof.
  intros Hok Hdir Hfault Hcode.
  assert (Hcatch : bool_decide (err_code (SystemError code) = Some EPERM) = false).
  { apply bool_decide_eq_false_2. cbn. congruence. }
  unfold Part001.setCurrent, try_catch, bind, ret.
  destruct (fs w !! CURRENT_LINK h) as [n |] eqn:Hp.
  - assert (Hn : n <> Dir) by congruence.
    rewrite (fs_unlink_present _ _ _ Hok Hp Hn).
    unfold fs_symlink. rewrite sys_fault with (code := code) by exact Hfault.
    rewrite Hcatch. cbn. split; [reflexivity | apply lookup_delete_eq].
  - rewrite (fs_unlink_absent _ _ Hok Hp). cbn. settle_codes. cbn.
    unfold fs_symlink. rewrite sys_fault with (code := code) by exact Hfault.
    rewrite Hcatch. cbn. split; [reflexivity | exact Hp].
Qed.

Lemma sys_reads {A} (c : syscall) (act : gmap string node -> result A * gmap string node)
    (w : world) :
  (forall m, snd (act m) = m) -> snd (sys c act w) = log (EvSys c) w.
Proof.
  intros Hreads. unfold sys. destruct (faults w c); [reflexivity |].
  specialize (Hreads (fs w)). destruct (act (fs w)) as [r m]. cbn in *. now subst m.
Qed.

Lemma fs_readlink_world (w : world) (p : string) :
  snd (fs_readlink p w) = log (EvSys (SysReadlink p)) w.
Proof.
  apply sys_reads. intros m. now destruct (m !! p) as [[] |].
Qed.

Lemma getCurrent_world (w : world) :
  snd (getCurrent h w) = log (EvSys (SysReadlink (CURRENT_LINK h))) w.
Proof.
  unfold getCurrent, try_catch, bind, lift, ret, throw.
  pose proof (fs_readlink_world w (CURRENT_LINK h)) as Hw.
  destruct (fs_readlink (CURRENT_LINK h) w) as [[file | e] w1]; cbn in Hw; subst w1.
  - destruct (getVersion h file); [reflexivity |]. now case_bool_decide.
  - now case_bool_decide.
Qed.

(** getCurrent names a version only when it read a link. *)
Lemma getCurrent_some (w : world) (version : string) :
  fst (getCurrent h w) = Ok (Some version) ->
  exists target : string, fs w !! CURRENT_LINK h = Some (Symlink target).
Proof.
  unfold getCurrent, try_catch, bind, lift, ret, throw, fs_readlink, sys.
  destruct (faults w (SysReadlink (CURRENT_LINK h))).
  - case_bool_decide; discriminate.
  - destruct (fs w !! CURRENT_LINK h) as [[content mode | target |] |].
    + case_bool_decide; discriminate.
    + intros _. now exists target.
    + case_bool_decide; discriminate.
    + case_bool_decide; discriminate.
Qed.

(** C5, as the code has it.  The check that the version is installed is
    made by uninstallCommand, which throws "Version <v> is not
    installed" and touches nothing.  uninstall itself makes no check: on
    a version whose file is absent it fails with the ENOENT of unlink
    whenever getCurrent returns (having removed the link first when that
    named the version), and with the error of getCurrent when that
    throws.  When the version is the current one, uninstall removes the
    link first and the file second, after which getCurrent returns null
    and the file is gone. *)
Theorem uninstall_clears_pointer_then_deletes (w : world) (version : string) :
  (fst (isInstalled h version w) = Ok false ->
   fst (Part001.uninstallCommand h (Some version) w) =
     Throw (Part001.not_installed version) /\
   fs (snd (Part001.uninstallCommand h (Some version) w)) = fs w) /\
  (forall current : option string,
      fst (getCurrent h w) = Ok current ->
      fs w !! getPath h version = None ->
      faults w (SysUnlink (CURRENT_LINK h)) = None ->
      faults w (SysUnlink (getPath h version)) = None ->
      fst (Part001.uninstall h version w) = Throw (SystemError ENOENT)) /\
  (forall e : exn,
      fst (getCurrent h w) = Throw e ->
      Part001.uninstall h version w =
        (Throw e, log (EvSys (SysReadlink (CURRENT_LINK h))) w)) /\
  (forall (target content : string) (mode : N),
      fs w !! CURRENT_LINK h = Some (Symlink target) ->
      getVersion h target = Ok version ->
      fs w !! getPath h version = Some (File content mode) ->
      faults w (SysReadlink (CURRENT_LINK h)) = None ->
      faults w (SysUnlink (CURRENT_LINK h)) = None ->
      faults w (SysUnlink (getPath h version)) = None ->
      exists w' : world,
        Part001.uninstall h version w = (Ok tt, w') /\
        trace w' = trace w ++ [EvSys (SysReadlink (CURRENT_LINK h));
                               EvSys (SysUnlink (CURRENT_LINK h));
                               EvSys (SysUnlink (getPath h version))] /\
        fs w' = delete (getPath h version) (delete (CURRENT_LINK h) (fs w)) /\
        fst (getCurrent h w') = Ok None /\
        fs w' !! getPath h version = None).
Proof.
  split; [| split; [| split]].
  - intros Hno. apply isInstalled_world in Hno.
    unfold Part001.uninstallCommand, Part001.argv_version, bind, ret, throw.
    rewrite Hno. cbn. split; reflexivity.
  - intros current Hcurrent Hfile Hul Hup.
    pose proof (getCurrent_world w) as Hw.
    unfold Part001.uninstall, bind, ret.
    destruct (getCurrent h w) as [r w1] eqn:Hrun. cbn [fst snd] in *. subst r w1.
    case_bool_decide as Hsame.
    + subst current.
      assert (Hlink : exists target, fs w !! CURRENT_LINK h = Some (Symlink target)).
      { apply (getCurrent_some w version). now rewrite Hrun. }
      destruct Hlink as [target Hlink].
      rewrite (setCurrent_null_present _ (Symlink target)) by easy.
      rewrite fs_unlink_absent; [reflexivity | assumption |].
      cbn. destruct (decide (CURRENT_LINK h = getPath h version)) as [<- | Hne].
      * apply lookup_delete_eq.
      * now rewrite lookup_delete_ne.
    + now rewrite fs_unlink_absent.
  - intros e Hthrown. pose proof (getCurrent_world w) as Hw.
    unfold Part001.uninstall, bind.
    destruct (getCurrent h w) as [r w1]. cbn [fst snd] in *. now subst r w1.
  - intros target content mode Hlink Hv Hfile Hrl Hul Hup.
    assert (Hne : CURRENT_LINK h <> getPath h version) by congruence.
    unfold Part001.uninstall, bind, ret.
    rewrite (getCurrent_symlink _ _ _ Hrl Hlink Hv).
    rewrite bool_decide_eq_true_2 by reflexivity.
    rewrite (setCurrent_null_present _ (Symlink target)) by easy.
    rewrite (fs_unlink_present _ _ (File content mode));
      [| assumption | cbn; now rewrite lookup_delete_ne | easy].
    eexists. split; [reflexivity |]. cbn.
    split; [now rewrite <- !app_assoc |].
    split; [reflexivity |]. split.
    + rewrite getCurrent_absent; [reflexivity | assumption |].
      cbn. rewrite lookup_delete_ne by congruence. apply lookup_delete_eq.
    + apply lookup_delete_eq.
Qed.
End StoreProperties.

(** ** The install pipeline *)


(** ** mkdir *)

(** mkdir keeps what is there and adds directories, on the way to its
    path and nowhere else. *)
Lemma make_dirs_spec (ps : list string) (m m' : gmap string node) (r : result unit) :
  make_dirs ps m = (r, m') ->
  (forall (q : string) (n : node), m !! q = Some n -> m' !! q = Some n) /\
  (forall q : string, m !! q = None -> m' !! q = None \/ (q ∈ ps /\ m' !! q = Some Dir)).
Proof.
  revert m. induction ps as [| p ps IH]; intros m; cbn [make_dirs].
  - intros [= <- <-]. split; [auto | now left].
  - destruct (m !! p) as [[content mode | target |] |] eqn:Hp.
    + intros [= <- <-]. split; [auto | now left].
    + intros [= <- <-]. split; [auto | now left].
    + intros Hrun. destruct (IH _ Hrun) as [Hkeep Hnew]. split; [exact Hkeep |].
      intros q Hq. destruct (Hnew q Hq) as [Hnone | [Hin Hdir]]; [now left | right].
      split; [now apply list_elem_of_further | assumption].
    + intros Hrun. destruct (IH _ Hrun) as [Hkeep Hnew]. split.
      * intros q n Hq. apply Hkeep. rewrite lookup_insert_ne; [assumption | congruence].
      * intros q Hq. destruct (decide (p = q)) as [<- | Hne].
        -- right. split; [apply list_elem_of_here |].
           apply Hkeep, lookup_insert_eq.
        -- destruct (Hnew q) as [Hnone | [Hin Hdir]].
           ++ now rewrite lookup_insert_ne.
           ++ now left.
           ++ right. split; [now apply list_elem_of_further | assumption].
Qed.

Lemma mkdir_frame (win : bool) (w : world) (d : string) :
  net (snd (fs_mkdir_recursive win d w)) = net w /\
  faults (snd (fs_mkdir_recursive win d w)) = faults w /\
  trace (snd (fs_mkdir_recursive win d w)) = trace w ++ [EvSys (SysMkdir d)] /\
  (forall (q : string) (n : node),
      fs w !! q = Some n -> fs (snd (fs_mkdir_recursive win d w)) !! q = Some n) /\
  (forall q : string,
      fs w !! q = None ->
      fs (snd (fs_mkdir_recursive win d w)) !! q = None \/
      (q ∈ ancestors win d ++ [d] /\ fs (snd (fs_mkdir_recursive win d w)) !! q = Some Dir)).
Proof.
  unfold fs_mkdir_recursive.
  destruct (sys_frame (SysMkdir d) (make_dirs (ancestors win d ++ [d])) w)
    as (Hfaults & Hnet & Htrace).
  refine (conj Hnet (conj Hfaults (conj Htrace _))).
  unfold sys. destruct (faults w (SysMkdir d)); [cbn; split; [auto | now left] |].
  destruct (make_dirs _ (fs w)) as [r m] eqn:Hrun. cbn.
  exact (make_dirs_spec _ _ _ _ Hrun).
Qed.

Lemma mkdir_spec (win : bool) (w w' : world) (d : string) :
  fs_mkdir_recursive win d w = (Ok tt, w') ->
  net w' = net w /\ faults w' = faults w /\
  trace w' = trace w ++ [EvSys (SysMkdir d)] /\
  forall (p content : string) (mode : N),
    fs w' !! p = Some (File content mode) -> fs w !! p = Some (File content mode).
Proof.
  intros Hrun. destruct (mkdir_frame win w d) as (Hnet & Hfaults & Htrace & Hkeep & Hnew).
  rewrite Hrun in *. cbn [snd] in *.
  refine (conj Hnet (conj Hfaults (conj Htrace _))).
  intros p content mode Hfile.
  destruct (fs w !! p) as [n |] eqn:Hp.
  - rewrite (Hkeep p n Hp) in Hfile. congruence.
  - destruct (Hnew p Hp) as [Hnone | [_ Hdir]]; congruence.
Qed.

(** ** The streams *)

Section PipelineProperties.
Variable h : host.

Lemma only_writes_trans (w1 w2 w3 : world) (p : string) :
  only_writes w1 w2 p -> only_writes w2 w3 p -> only_writes w1 w3 p.
Proof.
  intros [n Hn] [k Hk]. exists (n + k)%nat.
  now rewrite Hk, Hn, repeat_app, app_assoc.
Qed.

Lemma write_out_spec (w w' : world) (p out content : string) (mode : N) (r : result unit) :
  fs w !! p = Some (File content mode) ->
  write_out p out w = (r, w') ->
  net w' = net w /\ faults w' = faults w /\ only_writes w w' p /\
  match r with
  | Ok _ => fs w' !! p = Some (File (content +:+ out) mode)
  | Throw _ => fs w' = fs w
  end.
Proof.
  intros Hfile. unfold write_out.
  destruct (String.eqb out "") eqn:Hout.
  - apply eqb_empty in Hout. subst out. intros [= <- <-].
    rewrite append_nil_r. repeat split; [| assumption].
    exists 0%nat. cbn. now rewrite app_nil_r.
  - unfold fs_write, sys. destruct (faults w (SysWrite p)) as [code |].
    + intros [= <- <-]. repeat split. now exists 1%nat.
    + rewrite Hfile. intros [= <- <-]. cbn. repeat split.
      * now exists 1%nat.
      * apply lookup_insert_eq.
Qed.

(** While the file is being closed the hasher takes up to [lag] more
    chunks; the digest is that of all it has taken. *)
Lemma finishing_spec (lag : nat) (fin : body_end) :
  forall (body : list string) (hashStream : sha256Stream)
         (unzipStream : ex_state (ParseOne h)) (actualSum : string),
    finishing h lag hashStream unzipStream body fin = Ok actualSum ->
    actualSum = sha256_hex h (_hash hashStream +:+ String.concat "" (take lag body)).
Proof.
  induction lag as [| lag IH]; intros body hashStream unzipStream actualSum;
    cbn [finishing].
  - intros [= <-]. cbn. now rewrite append_nil_r.
  - destruct body as [| chunk rest].
    + destruct fin as [| e]; [| discriminate].
      destruct (ex_end _ _); [| discriminate].
      intros [= <-]. cbn. now rewrite append_nil_r.
    + cbn [_transform].
      destruct (ex_write _ _ _) as [[[unzipStream' out] complete] | e]; [| discriminate].
      intros Hrun. rewrite (IH _ _ _ _ Hrun). cbn [_hash take].
      now rewrite concat_cons, append_assoc.
Qed.

Lemma hashed_prefix (body : list string) :
  forall unzipStream : ex_state (ParseOne h),
    exists rest : list string, body = hashed h unzipStream body ++ rest.
Proof.
  induction body as [| chunk body IH]; intros unzipStream; cbn [hashed].
  - now exists [].
  - assert (Hcut : exists rest, chunk :: body = (chunk :: take (finish_lag h) body) ++ rest).
    { exists (drop (finish_lag h) body). cbn. now rewrite take_drop. }
    destruct (ex_write _ _ _) as [[[unzipStream' out] [|]] | e]; try exact Hcut.
    destruct (IH unzipStream') as [rest Hrest]. exists rest. cbn. now rewrite <- Hrest.
Qed.

(** When the file takes long enough to finish, every chunk has been
    hashed. *)
Lemma hashed_all (body : list string) :
  forall unzipStream : ex_state (ParseOne h),
    (length body <= S (finish_lag h))%nat -> hashed h unzipStream body = body.
Proof.
  induction body as [| chunk body IH]; intros unzipStream Hshort; [reflexivity |].
  cbn [hashed length] in *.
  assert (Hcut : chunk :: take (finish_lag h) body = chunk :: body).
  { f_equal. apply take_ge. lia. }
  destruct (ex_write _ _ _) as [[[unzipStream' out] [|]] | e]; try exact Hcut.
  f_equal. apply IH. lia.
Qed.

Lemma pump_spec (p : string) (fin : body_end) (body : list string) :
  forall (hashStream : sha256Stream) (unzipStream : ex_state (ParseOne h))
         (w w' : world) (content : string) (mode : N) (r : result string),
    fs w !! p = Some (File content mode) ->
    pump h p hashStream unzipStream body fin w = (r, w') ->
    net w' = net w /\ faults w' = faults w /\ only_writes w w' p /\
    file_at w' p mode /\
    forall actualSum : string, r = Ok actualSum ->
      actualSum =
        sha256_hex h (_hash hashStream +:+ String.concat "" (hashed h unzipStream body)) /\
      exists out : string,
        extract_all h unzipStream body = Ok out /\
        fs w' !! p = Some (File (content +:+ out) mode).
Proof.
  assert (Hrefl : forall w0 : world, only_writes w0 w0 p).
  { intros w0. exists 0%nat. cbn. now rewrite app_nil_r. }
  induction body as [| chunk rest IH];
    intros hashStream unzipStream w w' content mode r Hfile;
    cbn [pump extract_all hashed].
  - destruct fin as [| e].
    + destruct (ex_end (ParseOne h) unzipStream) as [out | e].
      * unfold bind, ret.
        destruct (write_out p out w) as [[[] | e] w1] eqn:Hw;
          destruct (write_out_spec _ _ _ _ _ _ _ Hfile Hw) as (Hn & Hf & Ht & Hr);
          intros [= <- <-]; refine (conj Hn (conj Hf (conj Ht (conj _ _)))).
        -- now exists (content +:+ out).
        -- intros actualSum [= <-]. cbn. rewrite append_nil_r.
           split; [reflexivity |]. now exists out.
        -- exists content. now rewrite Hr.
        -- discriminate.
      * intros [= <- <-].
        refine (conj eq_refl (conj eq_refl (conj (Hrefl _) (conj _ _)))).
        -- now exists content.
        -- discriminate.
    + intros [= <- <-].
      refine (conj eq_refl (conj eq_refl (conj (Hrefl _) (conj _ _)))).
      * now exists content.
      * discriminate.
  - cbn [_transform].
    destruct (ex_write (ParseOne h) unzipStream chunk)
      as [[[unzipStream' out] complete] | e].
    + unfold bind at 1.
      destruct (write_out p out w) as [[[] | e] w1] eqn:Hw;
        destruct (write_out_spec _ _ _ _ _ _ _ Hfile Hw) as (Hn & Hf & Ht & Hr).
      * destruct complete.
        -- unfold lift. intros [= <- <-].
           refine (conj Hn (conj Hf (conj Ht (conj _ _)))).
           ++ now exists (content +:+ out).
           ++ intros actualSum Hsum. apply finishing_spec in Hsum. split.
              ** rewrite Hsum. cbn [_hash]. now rewrite concat_cons, append_assoc.
              ** now exists out.
        -- intros Hpump.
           destruct (IH _ _ _ _ _ _ _ Hr Hpump) as (Hn' & Hf' & Ht' & Hfile' & Hok).
           split; [congruence |]. split; [congruence |].
           split; [eapply only_writes_trans; eassumption |].
           split; [assumption |].
           intros actualSum Hsum.
           destruct (Hok _ Hsum) as (Hdigest & outs & Hex & Hc). split.
           ++ rewrite Hdigest. cbn [_hash]. now rewrite concat_cons, append_assoc.
           ++ exists (out +:+ outs). rewrite Hex. split; [reflexivity |].
              now rewrite <- append_assoc.
      * intros [= <- <-]. refine (conj Hn (conj Hf (conj Ht (conj _ _)))).
        -- exists content. now rewrite Hr.
        -- discriminate.
    + intros [= <- <-].
      refine (conj eq_refl (conj eq_refl (conj (Hrefl _) (conj _ _)))).
      * now exists content.
      * discriminate.
Qed.

Lemma open_spec (w : world) (p : string) :
  fst (fs_open_w p w) = Ok tt ->
  exists mode : N,
    fs (snd (fs_open_w p w)) !! p = Some (File "" mode) /\
    net (snd (fs_open_w p w)) = net w /\
    faults (snd (fs_open_w p w)) = faults w /\
    trace (snd (fs_open_w p w)) = trace w ++ [EvSys (SysOpen p)].
Proof.
  unfold fs_open_w, sys. destruct (faults w (SysOpen p)); [discriminate |].
  destruct (fs w !! p) as [[content mode | target |] |]; cbn; try discriminate; intros _.
  - exists mode. now rewrite lookup_insert_eq.
  - exists 438. now rewrite lookup_insert_eq.
Qed.

Lemma download_not_200 (w : world) (url p : string) (status : N)
    (body : list string) (fin : body_end) :
  net w url = Response status body fin -> status <> 200 ->
  download h url p w =
  (Throw (Error ("Download failed with status " +:+ pretty status)),
   log (EvAbort url) (log (EvGet url) w)).
Proof.
  intros Hnet Hstatus. unfold download. rewrite Hnet.
  now destruct (N.eqb_spec status 200).
Qed.

Lemma download_no_response (w : world) (url p : string) (e : exn) :
  net w url = ReqError e -> download h url p w = (Throw e, log (EvGet url) w).
Proof. intros Hnet. unfold download. now rewrite Hnet. Qed.

(** After a 200 the file is opened; what follows only writes to it.  The
    promise resolves with the digest of the chunks hashed by then. *)
Lemma download_200 (w w1 : world) (url p : string) (body : list string)
    (fin : body_end) (r : result string) :
  net w url = Response 200 body fin ->
  fst (fs_open_w p (log (EvGet url) w)) = Ok tt ->
  download h url p w = (r, w1) ->
  net w1 = net w /\ faults w1 = faults w /\
  (exists n : nat,
      trace w1 = trace w ++ [EvGet url; EvSys (SysOpen p)]
                         ++ repeat (EvSys (SysWrite p)) n) /\
  exists mode : N,
    file_at w1 p mode /\
    forall actualSum : string, r = Ok actualSum ->
      actualSum =
        sha256_hex h (String.concat "" (hashed h (ex_init (ParseOne h)) body)) /\
      exists out : string,
        extract_all h (ex_init (ParseOne h)) body = Ok out /\
        fs w1 !! p = Some (File out mode).
Proof.
  intros Hnet Hopen. unfold download. rewrite Hnet. cbn [N.eqb Pos.eqb].
  destruct (open_spec _ _ Hopen) as (mode & Hfile & Hn & Hf & Ht).
  unfold bind at 1.
  destruct (fs_open_w p (log (EvGet url) w)) as [[[] | e] wo]; [| discriminate].
  cbn [fst snd] in *. intros Hpump.
  destruct (pump_spec _ _ _ _ _ _ _ _ _ _ Hfile Hpump)
    as (Hn' & Hf' & [n Ht'] & Hfile' & Hok).
  split; [now rewrite Hn', Hn |]. split; [now rewrite Hf', Hf |]. split.
  - exists n. rewrite Ht', Ht. cbn. now rewrite <- !app_assoc.
  - exists mode. split; [assumption | exact Hok].
Qed.

(** A resolved download had a 200 response and could open the file. *)
Lemma download_resolved (w w1 : world) (url p actualSum : string) :
  download h url p w = (Ok actualSum, w1) ->
  exists (body : list string) (fin : body_end),
    net w url = Response 200 body fin /\
    fst (fs_open_w p (log (EvGet url) w)) = Ok tt.
Proof.
  unfold download. destruct (net w url) as [e | status body fin]; [discriminate |].
  destruct (N.eqb_spec status 200) as [-> | _]; [| discriminate].
  unfold bind at 1. intros Hrun. exists body, fin. split; [reflexivity |].
  now destruct (fs_open_w p (log (EvGet url) w)) as [[[] | e] wo].
Qed.

(** fetchSum touches no file; it logs its two requests. *)
Lemma fetchSum_world (w : world) (version : string) :
  snd (fetchSum h version w) =
  log (EvGet (getSigUrl version)) (log (EvGet (getSumsUrl version)) w).
Proof.
  unfold fetchSum, bind, promise_all2, request_get, lift, ret, throw. cbn.
  destruct (received (net w (getSumsUrl version))) as [sums | e];
    destruct (received (net w (getSigUrl version))) as [sig | e']; try reflexivity.
  destruct (signature_read h sig); [| reflexivity].
  destruct (key_readArmored h (publicKey h)); [| reflexivity].
  destruct (openpgp_verify h _ _ _) as [[| [[] | e] rest] |]; try reflexivity.
  cbn. now destruct (getZipName h version).
Qed.

(** fetchSum returns only for a manifest whose first signature was
    verified, over the text as it was received; what it returns is the
    entry of the archive name in that text. *)
Lemma fetchSum_returned (w : world) (version : string) (expectedSum : option string) :
  fst (fetchSum h version w) = Ok expectedSum ->
  exists (sums sig zip : string) (signature : pgp_signature h)
         (keys : list (pgp_key h)) (rest : list (result bool)),
    received (net w (getSumsUrl version)) = Ok sums /\
    received (net w (getSigUrl version)) = Ok sig /\
    signature_read h sig = Ok signature /\
    key_readArmored h (publicKey h) = Ok keys /\
    openpgp_verify h sums signature keys = Ok (Ok true :: rest) /\
    getZipName h version = Ok zip /\
    expectedSum = parse_sums sums !! Some zip.
Proof.
  unfold fetchSum, bind, promise_all2, request_get, lift, ret, throw. cbn.
  destruct (received (net w (getSumsUrl version))) as [sums | e];
    destruct (received (net w (getSigUrl version))) as [sig | e']; try discriminate.
  destruct (signature_read h sig) as [signature |] eqn:Hread; [| discriminate].
  destruct (key_readArmored h (publicKey h)) as [keys |] eqn:Hkeys; [| discriminate].
  unfold fromBinary, encode_utf8.
  destruct (openpgp_verify h sums signature keys) as [[| [[] | e] rest] |] eqn:Hverify;
    try discriminate.
  cbn. destruct (getZipName h version) as [zip |] eqn:Hzip; [| discriminate].
  intros [= <-]. now exists sums, sig, zip, signature, keys, rest.
Qed.

Section Verified.
Variables (w : world) (version sums sig : string).
Variables (signature : pgp_signature h) (keys : list (pgp_key h)).
Hypothesis Hsums : received (net w (getSumsUrl version)) = Ok sums.
Hypothesis Hsig : received (net w (getSigUrl version)) = Ok sig.
Hypothesis Hread : signature_read h sig = Ok signature.
Hypothesis Hkeys : key_readArmored h (publicKey h) = Ok keys.

(** What fetchSum does with each outcome of the verification. *)
Lemma fetchSum_verify :
  fst (fetchSum h version w) =
  match openpgp_verify h sums signature keys with
  | Throw e => Throw e
  | Ok [] => Throw (TypeError "Cannot read property 'verified' of undefined")
  | Ok (Throw e :: _) => Throw e
  | Ok (Ok false :: _) => Throw (Error "Signature verification failed")
  | Ok (Ok true :: _) =>
      match getZipName h version with
      | Throw e => Throw e
      | Ok zip => Ok (parse_sums sums !! Some zip)
      end
  end.
Proof.
  unfold fetchSum, bind, promise_all2, request_get, lift, ret, throw. cbn.
  rewrite Hsums, Hsig, Hread, Hkeys.
  unfold fromBinary, encode_utf8.
  destruct (openpgp_verify h sums signature keys) as [[| [[] | e] rest] |];
    try reflexivity.
  cbn. now destruct (getZipName h version).
Qed.

Lemma fetchSum_invalid (rest : list (result bool)) :
  openpgp_verify h sums signature keys = Ok (Ok false :: rest) ->
  fst (fetchSum h version w) = Throw (Error "Signature verification failed").
Proof. intros Hverify. now rewrite fetchSum_verify, Hverify. Qed.

Lemma fetchSum_valid (rest : list (result bool)) (zip : string) :
  openpgp_verify h sums signature keys = Ok (Ok true :: rest) ->
  getZipName h version = Ok zip ->
  fst (fetchSum h version w) = Ok (parse_sums sums !! Some zip).
Proof. intros Hverify Hzip. now rewrite fetchSum_verify, Hverify, Hzip. Qed.
End Verified.

(** fetchSum reads the network only. *)
Lemma fetchSum_net (w w' : world) (version : string) :
  net w' = net w -> fst (fetchSum h version w') = fst (fetchSum h version w).
Proof.
  intros Hnet.
  unfold fetchSum, bind, promise_all2, request_get, lift, ret, throw. cbn.
  rewrite Hnet.
  destruct (received (net w (getSumsUrl version))) as [sums | e];
    destruct (received (net w (getSigUrl version))) as [sig | e']; try reflexivity.
  destruct (signature_read h sig); [| reflexivity].
  destruct (key_readArmored h (publicKey h)); [| reflexivity].
  destruct (openpgp_verify h _ _ _) as [[| [[] | e] rest] |]; try reflexivity.
  cbn. now destruct (getZipName h version).
Qed.
Lemma cleanup_deletes (w : world) (p : string) (mode : N) (err : exn) :
  file_at w p mode -> faults w (SysUnlink p) = None ->
  cleanup p err w =
  (Throw err, set_fs (delete p (fs w)) (log (EvSys (SysUnlink p)) w)).
Proof.
  intros [content Hfile] Hok. unfold cleanup, bind, throw.
  now rewrite (fs_unlink_present _ _ _ Hok Hfile).
Qed.

Lemma cleanup_throws (w : world) (p : string) (err : exn) :
  fst (cleanup p err w) <> Ok tt.
Proof.
  unfold cleanup, bind, throw. now destruct (fs_unlink p w) as [[[] | e] w'].
Qed.

(** install once the archive has been downloaded: the verification
    stage, wrapped in its handler. *)
Lemma install_after_download (w0 w w1 : world) (version url actualSum : string) :
  fs_mkdir_recursive (win h) (VERSIONS_DIR h) w0 = (Ok tt, w) ->
  getExeUrl h version = Ok url ->
  download h url (getPath h version) w = (Ok actualSum, w1) ->
  Part001.install h version w0 =
  match fetchSum h version w1 with
  | (Ok expectedSum, w2) =>
      if bool_decide (Some actualSum = expectedSum) then
        match fs_chmod (getPath h version) 493 w2 with
        | (Ok _, w3) => (Ok tt, w3)
        | (Throw err, w3) => cleanup (getPath h version) err w3
        end
      else cleanup (getPath h version) (Error "Hash verification failed") w2
  | (Throw err, w2) => cleanup (getPath h version) err w2
  end.
Proof.
  intros Hmkdir Hurl Hdl.
  unfold Part001.install, bind at 1. rewrite Hmkdir.
  unfold bind at 1. unfold bind at 1, lift. rewrite Hurl, Hdl.
  unfold try_catch, bind at 1.
  destruct (fetchSum h version w1) as [[expectedSum | err] w2]; [| reflexivity].
  destruct (bool_decide (Some actualSum = expectedSum)); cbn [negb].
  - now destruct (fs_chmod (getPath h version) 493 w2) as [[[] | err] w3].
  - reflexivity.
Qed.

(** install when the download promise rejects: the rejection leaves
    install at once, outside the try block. *)
Lemma install_download_rejected (w0 w w1 : world) (version url : string) (e : exn) :
  fs_mkdir_recursive (win h) (VERSIONS_DIR h) w0 = (Ok tt, w) ->
  getExeUrl h version = Ok url ->
  download h url (getPath h version) w = (Throw e, w1) ->
  Part001.install h version w0 = (Throw e, w1).
Proof.
  intros Hmkdir Hurl Hdl.
  unfold Part001.install, bind at 1. rewrite Hmkdir.
  unfold bind at 1. unfold bind at 1, lift. now rewrite Hurl, Hdl.
Qed.
(** What install does once the download has resolved and fetchSum has
    thrown or returned a digest that differs: the file is deleted and the
    error thrown. *)
Lemma install_verification_failed (w0 w w1 : world) (version url actualSum : string)
    (expected : result (option string)) (err : exn) :
  fs_mkdir_recursive (win h) (VERSIONS_DIR h) w0 = (Ok tt, w) ->
  getExeUrl h version = Ok url ->
  download h url (getPath h version) w = (Ok actualSum, w1) ->
  faults w0 (SysUnlink (getPath h version)) = None ->
  fst (fetchSum h version w0) = expected ->
  match expected with
  | Throw e => err = e
  | Ok expectedSum => Some actualSum <> expectedSum /\ err = Error "Hash verification failed"
  end ->
  exists w' : world,
    Part001.install h version w0 = (Throw err, w') /\
    fs w' !! getPath h version = None /\
    last (trace w') = Some (EvSys (SysUnlink (getPath h version))).
Proof.
  intros Hmkdir Hurl Hdl Hunlink Hexpected Herr.
  destruct (download_resolved _ _ _ _ _ Hdl) as (body & fin & Hresp & Hopen).
  destruct (download_200 _ _ _ _ _ _ _ Hresp Hopen Hdl)
    as (Hnet & Hfaults & _ & mode & Hfile & _).
  destruct (mkdir_spec _ _ _ _ Hmkdir) as (Hnet0 & Hfaults0 & _ & _).
  rewrite (install_after_download w0 w w1 version url actualSum Hmkdir Hurl Hdl).
  assert (Hsame : fst (fetchSum h version w1) = expected).
  { rewrite <- Hexpected. apply fetchSum_net. congruence. }
  pose proof (fetchSum_world w1 version) as Hw2.
  destruct (fetchSum h version w1) as [r w2]. cbn [fst snd] in *. subst r.
  assert (Hfile2 : file_at w2 (getPath h version) mode).
  { subst w2. exact Hfile. }
  assert (Hunlink2 : faults w2 (SysUnlink (getPath h version)) = None).
  { subst w2. cbn. congruence. }
  assert (Hdone : forall e, exists w',
             cleanup (getPath h version) e w2 = (Throw e, w') /\
             fs w' !! getPath h version = None /\
             last (trace w') = Some (EvSys (SysUnlink (getPath h version)))).
  { intros e. eexists. split; [apply (cleanup_deletes _ _ mode); assumption |].
    cbn. split; [apply lookup_delete_eq | apply last_snoc]. }
  destruct expected as [expectedSum | e].
  - destruct Herr as [Hne ->]. rewrite bool_decide_eq_false_2 by assumption.
    apply Hdone.
  - subst err. apply Hdone.
Qed.

End PipelineProperties.

(** ** install *)

Section InstallProperties.
Variable h : host.

(** C8. Once the versions directory is there, install creates no file
    before a response with status 200: for any other status the request
    is aborted and install throws "Download failed with status <status>";
    when no response comes at all the request error is thrown.  In both
    cases the trace shows no open or write, the file system is the one
    mkdir left, and a regular file at the install path can only be one
    that was there before. *)
Theorem no_file_until_status_200 (w0 w : world) (version url : string) :
  fs_mkdir_recursive (win h) (VERSIONS_DIR h) w0 = (Ok tt, w) ->
  getExeUrl h version = Ok url ->
  (forall (status : N) (body : list string) (fin : body_end),
      net w0 url = Response status body fin -> status <> 200 ->
      Part001.install h version w0 =
        (Throw (Error ("Download failed with status " +:+ pretty status)),
         log (EvAbort url) (log (EvGet url) w))) /\
  (forall e : exn,
      net w0 url = ReqError e ->
      Part001.install h version w0 = (Throw e, log (EvGet url) w)) /\
  (forall (content : string) (mode : N),
      (forall body fin, net w0 url <> Response 200 body fin) ->
      fs (snd (Part001.install h version w0)) !! getPath h version
        = Some (File content mode) ->
      fs w0 !! getPath h version = Some (File content mode)).
Proof.
  intros Hmkdir Hurl.
  destruct (mkdir_spec _ _ _ _ Hmkdir) as (Hnet & _ & _ & Hfiles).
  assert (Hrejected : forall status body fin,
             net w0 url = Response status body fin -> status <> 200 ->
             Part001.install h version w0 =
             (Throw (Error ("Download failed with status " +:+ pretty status)),
              log (EvAbort url) (log (EvGet url) w))).
  { intros status body fin Hresp Hstatus.
    apply (install_download_rejected h w0 w _ version url); try assumption.
    apply download_not_200 with (body := body) (fin := fin); congruence. }
  assert (Hnone : forall e, net w0 url = ReqError e ->
             Part001.install h version w0 = (Throw e, log (EvGet url) w)).
  { intros e Hresp.
    apply (install_download_rejected h w0 w _ version url); try assumption.
    apply download_no_response. congruence. }
  split; [exact Hrejected |]. split; [exact Hnone |].
  intros content mode Hnot200.
  destruct (net w0 url) as [e | status body fin] eqn:Hresp.
  - rewrite (Hnone e eq_refl). cbn. apply Hfiles.
  - assert (Hstatus : status <> 200) by (intros ->; now apply (Hnot200 body fin)).
    rewrite (Hrejected status body fin eq_refl Hstatus). cbn. apply Hfiles.
Qed.

(** C1, at the failing inputs.  When the download promise rejects after
    the file was created (an error of the request, of the extractor or of
    a write, after a 200 response), install throws that error without
    reaching its handler: the trace ends with the writes, no unlink is
    made, and the file written so far stays at the install path. *)
Theorem download_failure_leaves_file (w0 w w1 : world) (version url : string)
    (body : list string) (fin : body_end) (e : exn) :
  fs_mkdir_recursive (win h) (VERSIONS_DIR h) w0 = (Ok tt, w) ->
  getExeUrl h version = Ok url ->
  net w url = Response 200 body fin ->
  fst (fs_open_w (getPath h version) (log (EvGet url) w)) = Ok tt ->
  download h url (getPath h version) w = (Throw e, w1) ->
  Part001.install h version w0 = (Throw e, w1) /\
  (exists (content : string) (mode : N),
      fs w1 !! getPath h version = Some (File content mode)) /\
  (exists n : nat,
      trace w1 = trace w0 ++ [EvSys (SysMkdir (VERSIONS_DIR h)); EvGet url;
                              EvSys (SysOpen (getPath h version))]
                          ++ repeat (EvSys (SysWrite (getPath h version))) n).
Proof.
  intros Hmkdir Hurl Hresp Hopen Hdl.
  destruct (mkdir_spec _ _ _ _ Hmkdir) as (_ & _ & Htrace & _).
  destruct (download_200 h _ _ _ _ _ _ _ Hresp Hopen Hdl)
    as (_ & _ & [n Hn] & mode & [content Hfile] & _).
  split; [now apply (install_download_rejected h w0 w w1 version url) |].
  split; [now exists content, mode |].
  exists n. rewrite Hn, Htrace. now rewrite <- !app_assoc.
Qed.

(** C2, at the failing input.  The hasher sits upstream of the
    extractor: the digest that install compares with the manifest is the
    SHA-256 of chunks of the response as they arrived, and what the
    extractor made of them goes to the file and into no digest.  But the
    digest is read when the file finishes, which is when the entry is
    complete: it covers the chunks up to the one that completes the
    entry and those that passed the hasher since, a prefix of the
    response.  It is the digest of the whole response when the file
    takes long enough to finish, and not otherwise.  install succeeds
    only when the manifest lists the digest read; when it lists another,
    as the digest of the whole archive is once a chunk arrives too late,
    install deletes the file and throws "Hash verification failed". *)
Theorem digest_is_read_at_finish (w0 w w1 : world) (version url actualSum : string)
    (body : list string) (fin : body_end) :
  fs_mkdir_recursive (win h) (VERSIONS_DIR h) w0 = (Ok tt, w) ->
  getExeUrl h version = Ok url ->
  net w url = Response 200 body fin ->
  download h url (getPath h version) w = (Ok actualSum, w1) ->
  actualSum = sha256_hex h (String.concat "" (hashed h (ex_init (ParseOne h)) body)) /\
  (exists rest : list string, body = hashed h (ex_init (ParseOne h)) body ++ rest) /\
  ((length body <= S (finish_lag h))%nat ->
   actualSum = sha256_hex h (String.concat "" body)) /\
  (no_link_at w0 [getPath h version] ->
   exists (out : string) (mode : N),
     extract_all h (ex_init (ParseOne h)) body = Ok out /\
     fs w1 !! getPath h version = Some (File out mode)) /\
  (fst (Part001.install h version w0) = Ok tt ->
   fst (fetchSum h version w1) = Ok (Some actualSum)) /\
  (fst (fetchSum h version w1) = Ok (Some actualSum) ->
   faults w0 (SysChmod (getPath h version) 493) = None ->
   fst (Part001.install h version w0) = Ok tt) /\
  (forall expectedSum : option string,
      fst (fetchSum h version w1) = Ok expectedSum ->
      expectedSum <> Some actualSum ->
      faults w0 (SysUnlink (getPath h version)) = None ->
      exists w' : world,
        Part001.install h version w0 = (Throw (Error "Hash verification failed"), w') /\
        fs w' !! getPath h version = None).
Proof.
  intros Hmkdir Hurl Hresp Hdl.
  destruct (download_resolved h _ _ _ _ _ Hdl) as (body' & fin' & Hresp' & Hopen).
  destruct (download_200 h _ _ _ _ _ _ _ Hresp Hopen Hdl)
    as (Hnet & Hfaults & _ & mode & _ & Hok).
  destruct (Hok actualSum eq_refl) as (Hsum & out & Hout & Hfile).
  destruct (mkdir_spec _ _ _ _ Hmkdir) as (Hnet0 & Hfaults0 & _ & _).
  split; [exact Hsum |]. split; [apply hashed_prefix |].
  split; [intros Hshort; now rewrite Hsum, hashed_all |].
  split; [intros _; now exists out, mode |].
  assert (Hinstall := install_after_download h w0 w w1 version url actualSum
                        Hmkdir Hurl Hdl).
  pose proof (fetchSum_world h w1 version) as Hw2.
  split; [| split].
  - rewrite Hinstall.
    destruct (fetchSum h version w1) as [[expectedSum | err] w2]; cbn [fst snd] in *.
    + destruct (bool_decide_reflect (Some actualSum = expectedSum)) as [<- | Hne].
      * reflexivity.
      * intros Hbad. now apply cleanup_throws in Hbad.
    + intros Hbad. now apply cleanup_throws in Hbad.
  - rewrite Hinstall.
    destruct (fetchSum h version w1) as [r w2]; cbn [fst snd] in *.
    intros -> Hchmod. rewrite bool_decide_eq_true_2 by reflexivity.
    unfold fs_chmod. rewrite sys_act.
    + subst w2. cbn. rewrite Hfile. reflexivity.
    + subst w2. cbn. congruence.
  - intros expectedSum Hexpected Hdiffers Hunlink.
    assert (Hsame : fst (fetchSum h version w0) = Ok expectedSum).
    { rewrite <- Hexpected. symmetry. apply fetchSum_net. congruence. }
    destruct (install_verification_failed h w0 w w1 version url actualSum _
                (Error "Hash verification failed") Hmkdir Hurl Hdl Hunlink Hsame)
      as (w' & Hthrown & Hgone & _); [split; congruence |].
    now exists w'.
Qed.
End InstallProperties.

(** ** Verification of the manifest, and the guard against reinstalling *)

Section VerifyProperties.
Variable h : host.

(** C3. fetchSum hands the manifest text to the verification as it was
    received, with the signature read and the embedded public key, and
    it returns a digest only when the first signature is verified.  In
    every other case it throws: "Signature verification failed" when the
    signature is not verified, the error of openpgp when the
    verification is rejected or cannot be made, a TypeError when there
    is no signature.  In install this comes before the digests are
    compared: whatever digest the download produced and whatever the
    manifest lists, install deletes the file and throws the error of
    fetchSum. *)
Theorem signature_verified_before_comparison (w : world) (version : string) :
  (forall expectedSum : option string,
      fst (fetchSum h version w) = Ok expectedSum ->
      exists (sums sig : string) (signature : pgp_signature h)
             (keys : list (pgp_key h)) (rest : list (result bool)),
        received (net w (getSumsUrl version)) = Ok sums /\
        received (net w (getSigUrl version)) = Ok sig /\
        signature_read h sig = Ok signature /\
        key_readArmored h (publicKey h) = Ok keys /\
        openpgp_verify h sums signature keys = Ok (Ok true :: rest)) /\
  (forall (sums sig : string) (signature : pgp_signature h) (keys : list (pgp_key h)),
      received (net w (getSumsUrl version)) = Ok sums ->
      received (net w (getSigUrl version)) = Ok sig ->
      signature_read h sig = Ok signature ->
      key_readArmored h (publicKey h) = Ok keys ->
      (forall rest : list (result bool),
          openpgp_verify h sums signature keys = Ok (Ok false :: rest) ->
          fst (fetchSum h version w) = Throw (Error "Signature verification failed")) /\
      (forall (e : exn) (rest : list (result bool)),
          openpgp_verify h sums signature keys = Ok (Throw e :: rest) ->
          fst (fetchSum h version w) = Throw e) /\
      (forall e : exn,
          openpgp_verify h sums signature keys = Throw e ->
          fst (fetchSum h version w) = Throw e) /\
      (openpgp_verify h sums signature keys = Ok [] ->
       fst (fetchSum h version w) =
         Throw (TypeError "Cannot read property 'verified' of undefined"))) /\
  (forall (e : exn) (wm w1 : world) (url actualSum : string),
      fst (fetchSum h version w) = Throw e ->
      fs_mkdir_recursive (win h) (VERSIONS_DIR h) w = (Ok tt, wm) ->
      getExeUrl h version = Ok url ->
      download h url (getPath h version) wm = (Ok actualSum, w1) ->
      faults w (SysUnlink (getPath h version)) = None ->
      exists w' : world,
        Part001.install h version w = (Throw e, w') /\
        fs w' !! getPath h version = None).
Proof.
  split; [| split].
  - intros expectedSum Hreturned.
    destruct (fetchSum_returned h w version expectedSum Hreturned)
      as (sums & sig & zip & signature & keys & rest
          & Hsums & Hsig & Hread & Hkeys & Hverify & _).
    now exists sums, sig, signature, keys, rest.
  - intros sums sig signature keys Hsums Hsig Hread Hkeys.
    pose proof (fetchSum_verify h w version sums sig signature keys
                  Hsums Hsig Hread Hkeys) as Hcases.
    refine (conj _ (conj _ (conj _ _))).
    + intros rest Hverify. now rewrite Hcases, Hverify.
    + intros e rest Hverify. now rewrite Hcases, Hverify.
    + intros e Hverify. now rewrite Hcases, Hverify.
    + intros Hverify. now rewrite Hcases, Hverify.
  - intros e wm w1 url actualSum Hthrown Hmkdir Hurl Hdl Hunlink.
    destruct (install_verification_failed h w wm w1 version url actualSum _ e
                Hmkdir Hurl Hdl Hunlink Hthrown eq_refl) as (w' & Hinstall & Hgone & _).
    now exists w'.
Qed.

(** C4, as the code has it.  When the signature is valid and the
    manifest has no row for the archive name, fetchSum returns undefined;
    no error is thrown for the missing name.  install then finds the
    digest it computed different from undefined, deletes the file and
    throws "Hash verification failed". *)
Theorem fetchSum_missing_name_is_undefined (w : world) (version sums sig zip : string)
    (signature : pgp_signature h) (keys : list (pgp_key h)) (rest : list (result bool)) :
  received (net w (getSumsUrl version)) = Ok sums ->
  received (net w (getSigUrl version)) = Ok sig ->
  signature_read h sig = Ok signature ->
  key_readArmored h (publicKey h) = Ok keys ->
  openpgp_verify h sums signature keys = Ok (Ok true :: rest) ->
  getZipName h version = Ok zip ->
  parse_sums sums !! Some zip = None ->
  fst (fetchSum h version w) = Ok None /\
  (forall (wm w1 : world) (url actualSum : string),
      fs_mkdir_recursive (win h) (VERSIONS_DIR h) w = (Ok tt, wm) ->
      getExeUrl h version = Ok url ->
      download h url (getPath h version) wm = (Ok actualSum, w1) ->
      faults w (SysUnlink (getPath h version)) = None ->
      exists w' : world,
        Part001.install h version w = (Throw (Error "Hash verification failed"), w') /\
        fs w' !! getPath h version = None).
Proof.
  intros Hsums Hsig Hread Hkeys Hverify Hzip Hmissing.
  pose proof (fetchSum_valid h w version sums sig signature keys
                Hsums Hsig Hread Hkeys rest zip Hverify Hzip) as Hreturned.
  rewrite Hmissing in Hreturned.
  split; [exact Hreturned |].
  intros wm w1 url actualSum Hmkdir Hurl Hdl Hunlink.
  assert (Hdiffers : Some actualSum <> None /\
                     Error "Hash verification failed" = Error "Hash verification failed")
    by (split; [discriminate | reflexivity]).
  destruct (install_verification_failed h w wm w1 version url actualSum _
              (Error "Hash verification failed")
              Hmkdir Hurl Hdl Hunlink Hreturned Hdiffers)
    as (w' & Hinstall & Hgone & _).
  now exists w'.
Qed.

(** C6, as the code has it.  The guard against installing twice is
    isInstalled: in the latest revision installCommand asks it before it
    calls install, in the revision before install asks it itself.  When
    it answers true, either returns at once: the stat of the guard is the
    only event added to the trace (no request, no write) and the file
    system is left as it was. *)
Theorem guarded_install_is_idempotent (w : world) (version : string) :
  fst (isInstalled h version w) = Ok true ->
  Part001.installCommand h (Some version) w =
    (Ok tt, log (EvSys (SysStat (getPath h version))) w) /\
  Part000.install h version w =
    (Ok tt, log (EvSys (SysStat (getPath h version))) w) /\
  fs (log (EvSys (SysStat (getPath h version))) w) = fs w.
Proof.
  intros Hinstalled. apply isInstalled_world in Hinstalled.
  unfold Part001.installCommand, Part001.argv_version, Part000.install, bind, ret.
  rewrite Hinstalled. repeat split.
Qed.
End VerifyProperties.

(** * Further properties *)

(** ** Names and tokens *)

Section NameProperties.
Variable h : host.

(** X2. getVersion undoes getPath: for a version that is not empty and
    holds neither a path separator of the host nor a line terminator
    (LF, CR, U+2028, U+2029), the token read back from the install path
    is the version. *)
Theorem getVersion_getPath (version : string) :
  version <> "" -> plain version -> sepfree (win h) version ->
  getVersion h (getPath h version) = Ok version.
Proof.
  intros Hne Hplain Hfree.
  unfold getVersion. rewrite getPath_basename by assumption.
  now rewrite re_exec_entry_name.
Qed.

Lemma getVersion_token (file v : string) :
  getVersion h file = Ok v -> v <> "" /\ plain v.
Proof.
  unfold getVersion.
  destruct (re_exec _ _) as [v' |] eqn:Hre; [| discriminate].
  intros [= <-]. eapply re_exec_token; eassumption.
Qed.

(** X3. A token that getVersion returns is never empty and holds no line
    terminator (no LF or CR, and no U+2028 or U+2029 either); so it is
    with the version getCurrent returns and with every element of the
    result of list(). *)
Theorem tokens_are_plain (w : world) :
  (forall file v : string, getVersion h file = Ok v -> v <> "" /\ plain v) /\
  (forall v : string, fst (getCurrent h w) = Ok (Some v) -> v <> "" /\ plain v) /\
  (forall versions : list string,
      fst (list' h w) = Ok versions ->
      Forall (fun v => v <> "" /\ plain v) versions).
Proof.
  pose proof getVersion_token as Htoken.
  split; [exact Htoken |]. split.
  - intros v. unfold getCurrent, try_catch, bind, lift, ret, throw.
    destruct (fs_readlink (CURRENT_LINK h) w) as [[file | e] w1].
    + destruct (getVersion h file) as [v' | e] eqn:Hv.
      * intros [= <-]. eapply Htoken; eassumption.
      * destruct (bool_decide _); discriminate.
    + destruct (bool_decide _); discriminate.
  - intros versions. rewrite list'_unfold.
    destruct (fs_readdir (win h) (VERSIONS_DIR h) w) as [[files | e] w1];
      cbv beta iota zeta.
    + destruct (map_getVersion h files) as [vs | e] eqn:Hmap.
      * intros [= <-].
        assert (Hall : Forall (fun v => v <> "" /\ plain v) vs).
        { clear -Hmap Htoken. revert vs Hmap.
          induction files as [| f files IH]; intros vs; cbn [map_getVersion].
          - intros [= <-]. constructor.
          - destruct (getVersion h f) as [v | e] eqn:Hv; [| discriminate].
            destruct (map_getVersion h files) as [vs' | e]; [| discriminate].
            intros [= <-]. constructor; [eapply Htoken; eassumption | now apply IH]. }
        unfold sort. now rewrite merge_sort_Permutation.
      * case_bool_decide; intros Heq; cbn in Heq;
          [injection Heq as <-; constructor | discriminate].
    + case_bool_decide; intros Heq; cbn in Heq;
        [injection Heq as <-; constructor | discriminate].
Qed.

(** X1. On a host whose platform or architecture the program does not
    know, install creates the versions directory and then throws
    "Unsupported platform: ..." or, the platform being one it knows,
    "Unsupported architecture: ...": the platform is checked first.  No
    request is made and no file is opened. *)
Theorem install_on_unsupported_host (w w1 : world) (version : string) (e : exn) :
  getZipName h version = Throw e ->
  fs_mkdir_recursive (win h) (VERSIONS_DIR h) w = (Ok tt, w1) ->
  Part001.install h version w = (Throw e, w1) /\
  trace w1 = trace w ++ [EvSys (SysMkdir (VERSIONS_DIR h))] /\
  (e = Error ("Unsupported platform: " +:+ os_platform h) \/
   ((exists platform : string, getPlatform h = Ok platform) /\
    e = Error ("Unsupported architecture: " +:+ os_arch h))).
Proof.
  intros Hzip Hmkdir.
  destruct (mkdir_spec _ _ _ _ Hmkdir) as (_ & _ & Htrace & _).
  split; [| split; [exact Htrace |]].
  - unfold Part001.install, bind at 1. rewrite Hmkdir.
    unfold bind at 1. unfold bind at 1, lift.
    unfold getExeUrl. now rewrite Hzip.
  - revert Hzip. unfold getZipName.
    destruct (getPlatform h) as [platform | e'] eqn:Hplatform.
    + destruct (getArch h) as [arch | e''] eqn:Harch; [discriminate |].
      intros [= <-]. right. split; [now exists platform |].
      revert Harch. unfold getArch.
      repeat (destruct (String.eqb _ _); [discriminate |]). now intros [= <-].
    + intros [= <-]. left.
      revert Hplatform. unfold getPlatform.
      repeat (destruct (String.eqb _ _); [discriminate |]). now intros [= <-].
Qed.
End NameProperties.

(** ** The streaming hasher *)

Lemma feed_spec (chunks : list string) (st : sha256Stream) :
  snd (feed st chunks) = chunks /\
  _hash (fst (feed st chunks)) = _hash st +:+ String.concat "" chunks.
Proof.
  revert st. induction chunks as [| chunk rest IH]; intros st.
  - split; [reflexivity |]. cbn. now rewrite append_nil_r.
  - cbn [feed _transform].
    destruct (IH {| _hash := _hash st +:+ chunk |}) as [Hpassed Hhash].
    destruct (feed _ rest) as [st'' passed]. cbn [fst snd] in *.
    split; [now rewrite Hpassed |].
    rewrite Hhash, concat_cons. cbn [_hash]. apply append_assoc.
Qed.

(** X4. The hasher passes every chunk on unchanged and in order, and its
    digest is the SHA-256 of the chunks put together: it does not depend
    on where the stream was cut into chunks. *)
Theorem hasher_is_transparent (h : host) (chunks : list string) :
  snd (feed sha256Stream_new chunks) = chunks /\
  digest h (fst (feed sha256Stream_new chunks)) = sha256_hex h (String.concat "" chunks) /\
  (forall chunks' : list string,
      String.concat "" chunks' = String.concat "" chunks ->
      digest h (fst (feed sha256Stream_new chunks')) =
      digest h (fst (feed sha256Stream_new chunks))).
Proof.
  assert (Hdigest : forall cs, digest h (fst (feed sha256Stream_new cs)) =
                               sha256_hex h (String.concat "" cs)).
  { intros cs. unfold digest. now rewrite (proj2 (feed_spec cs sha256Stream_new)). }
  split; [apply feed_spec |]. split; [apply Hdigest |].
  intros chunks' Hsame. now rewrite !Hdigest, Hsame.
Qed.

(** ** The manifest: split and parse *)

Section Split.
Variables (s0 : ascii) (sep' : string).
Let sep : string := String s0 sep'.

Lemma prefix_mismatch (c : ascii) (rest : string) :
  Ascii.eqb s0 c = false -> String.prefix sep (String c rest) = false.
Proof.
  intros Hc. unfold sep. cbn [String.prefix].
  destruct (ascii_dec s0 c) as [-> | _]; [| reflexivity].
  now rewrite Ascii.eqb_refl in Hc.
Qed.

Lemma split_go_free (a s cur : string) :
  free_of s0 a ->
  split_go sep 0 cur (a +:+ s) = split_go sep 0 (String.rev_app a cur) s.
Proof.
  revert cur. induction a as [| c a IH]; intros cur Hfree; [reflexivity |].
  unfold free_of in Hfree. cbn [string_exists] in Hfree.
  apply orb_false_iff in Hfree as [Hc Hfree].
  rewrite append_cons. cbn [split_go String.rev_app].
  rewrite (prefix_mismatch c (a +:+ s) Hc). now apply IH.
Qed.

Lemma split_go_skip (x s cur : string) :
  split_go sep (String.length x) cur (x +:+ s) = split_go sep 0 cur s.
Proof.
  induction x as [| c x IH]; [reflexivity |].
  rewrite append_cons. exact IH.
Qed.

Lemma split_go_sep (s cur : string) :
  split_go sep 0 cur (sep +:+ s) = String.rev cur :: split_go sep 0 "" s.
Proof.
  pose proof (prefix_append sep s) as Hprefix.
  unfold sep in *. rewrite append_cons in *. cbn [split_go].
  rewrite Hprefix. f_equal.
  change (String.length (String s0 sep') - 1)%nat with (String.length sep' - 0)%nat.
  rewrite Nat.sub_0_r. apply split_go_skip.
Qed.

Lemma split_row (a s : string) :
  free_of s0 a -> split sep (a +:+ sep +:+ s) = a :: split sep s.
Proof.
  intros Hfree. unfold split.
  rewrite split_go_free by assumption. rewrite split_go_sep.
  now rewrite rev_rev_app.
Qed.

Lemma split_single (a : string) : free_of s0 a -> split sep a = [a].
Proof.
  intros Hfree. unfold split.
  rewrite <- (append_nil_r a) at 1. rewrite split_go_free by assumption.
  cbn [split_go]. now rewrite rev_rev_app.
Qed.
End Split.

Lemma add_row_listed (sumsMap : gmap (option string) string) (hash name : string) :
  token hash -> token name ->
  add_row sumsMap (hash +:+ "  " +:+ name) = <[Some name := hash]> sumsMap.
Proof.
  intros [Hhash _] [Hname _]. unfold add_row.
  rewrite (split_row " " " " hash name Hhash), (split_single " " " " name Hname).
  reflexivity.
Qed.

Lemma split_render (rows : list (string * string)) :
  Forall (fun row => token row.1 /\ token row.2) rows ->
  split newline (render_sums rows) =
  map (fun row => row.1 +:+ "  " +:+ row.2) rows ++ [""].
Proof.
  induction 1 as [| [hash name] rest [[_ Hhash] [_ Hname]] _ IH]; [reflexivity |].
  cbn [render_sums map app fst snd] in *.
  unfold newline in *. rewrite split_row; [now rewrite IH |].
  unfold free_of in *. rewrite !string_exists_append, Hhash, Hname. reflexivity.
Qed.

Lemma parse_render (rows : list (string * string)) :
  Forall (fun row => token row.1 /\ token row.2) rows ->
  parse_sums (render_sums rows) = <[None := ""]> (fold_left set_row rows ∅).
Proof.
  intros Hrows. unfold parse_sums. rewrite split_render by assumption.
  rewrite fold_left_app. cbn [fold_left].
  change (add_row ?m "") with (<[None := ""]> m). f_equal.
  generalize (∅ : gmap (option string) string).
  induction Hrows as [| [hash name] rest [Hhash Hname] _ IH]; intros m; [reflexivity |].
  cbn [map fold_left fst snd]. rewrite add_row_listed by assumption. apply IH.
Qed.

Lemma set_rows_other (rows : list (string * string)) (name : string)
    (m : gmap (option string) string) :
  name ∉ rows.*2 -> fold_left set_row rows m !! Some name = m !! Some name.
Proof.
  revert m. induction rows as [| [hash name'] rest IH]; intros m Hnotin; [reflexivity |].
  cbn in Hnotin. apply not_elem_of_cons in Hnotin as [Hne Hrest].
  cbn [fold_left]. rewrite IH by assumption.
  unfold set_row. cbn. rewrite lookup_insert_ne; congruence.
Qed.

Lemma parse_render_last (rows before after : list (string * string)) (hash name : string) :
  Forall (fun row => token row.1 /\ token row.2) rows ->
  rows = before ++ (hash, name) :: after -> name ∉ after.*2 ->
  parse_sums (render_sums rows) !! Some name = Some hash.
Proof.
  intros Hrows -> Hlast. rewrite parse_render by assumption.
  rewrite lookup_insert_ne by discriminate.
  rewrite fold_left_app. cbn [fold_left].
  rewrite set_rows_other by assumption.
  unfold set_row. cbn. apply lookup_insert_eq.
Qed.

(** X5. Parsing undoes rendering.  In the manifest made of rows
    "<digest>  <name>" (neither holding a space or a newline), a name is
    mapped to the digest of its last row, and a name that no row lists
    is mapped to nothing. *)
Theorem parse_sums_render (rows : list (string * string)) :
  Forall (fun row => token row.1 /\ token row.2) rows ->
  (forall (before after : list (string * string)) (hash name : string),
      rows = before ++ (hash, name) :: after -> name ∉ after.*2 ->
      parse_sums (render_sums rows) !! Some name = Some hash) /\
  (forall name : string,
      name ∉ rows.*2 -> parse_sums (render_sums rows) !! Some name = None).
Proof.
  intros Hrows. split.
  - intros before after hash name. now apply parse_render_last.
  - intros name Hnotin. rewrite parse_render by assumption.
    rewrite lookup_insert_ne by discriminate.
    now rewrite set_rows_other.
Qed.

(** X6. With a valid signature over a manifest that lists the archive
    of this host, fetchSum returns the digest listed (in the last row
    that names the archive). *)
Theorem fetchSum_returns_listed_digest (h : host) (w : world) (version sig zip hash : string)
    (rows before after : list (string * string))
    (signature : pgp_signature h) (keys : list (pgp_key h)) (rest : list (result bool)) :
  received (net w (getSumsUrl version)) = Ok (render_sums rows) ->
  received (net w (getSigUrl version)) = Ok sig ->
  signature_read h sig = Ok signature ->
  key_readArmored h (publicKey h) = Ok keys ->
  openpgp_verify h (render_sums rows) signature keys = Ok (Ok true :: rest) ->
  getZipName h version = Ok zip ->
  Forall (fun row => token row.1 /\ token row.2) rows ->
  rows = before ++ (hash, zip) :: after -> zip ∉ after.*2 ->
  fst (fetchSum h version w) = Ok (Some hash).
Proof.
  intros Hsums Hsig Hread Hkeys Hverify Hzip Hrows Hsplit Hlast.
  rewrite (fetchSum_valid h w version _ sig signature keys
             Hsums Hsig Hread Hkeys rest zip Hverify Hzip).
  f_equal. now apply (parse_render_last rows before after).
Qed.

(** ** Operations that only read *)

Lemma fs_readdir_world (win : bool) (w : world) (p : string) :
  snd (fs_readdir win p w) = log (EvSys (SysReaddir p)) w.
Proof.
  apply sys_reads. intros m. now destruct (m !! p) as [[] |].
Qed.

Section ReadersProperties.
Variable h : host.

Lemma isInstalled_any_world (w : world) (version : string) :
  snd (isInstalled h version w) = log (EvSys (SysStat (getPath h version))) w.
Proof.
  unfold isInstalled, try_catch, bind, ret, throw.
  pose proof (fs_stat_world w (getPath h version)) as Hw.
  destruct (fs_stat (getPath h version) w) as [[n | e] w1]; cbn in Hw; subst w1.
  - reflexivity.
  - now case_bool_decide.
Qed.

Lemma isInstalled_true (w : world) (version : string) (n : node) :
  faults w (SysStat (getPath h version)) = None ->
  fs w !! getPath h version = Some n ->
  isInstalled h version w = (Ok true, log (EvSys (SysStat (getPath h version))) w).
Proof.
  intros Hok Hp. unfold isInstalled, try_catch, bind, ret.
  now rewrite (fs_stat_present _ _ _ Hok Hp).
Qed.

Lemma list'_world (w : world) :
  snd (list' h w) = log (EvSys (SysReaddir (VERSIONS_DIR h))) w.
Proof.
  rewrite list'_unfold.
  pose proof (fs_readdir_world (win h) w (VERSIONS_DIR h)) as Hw.
  destruct (fs_readdir (win h) (VERSIONS_DIR h) w) as [[files | e] w1];
    cbn in Hw; subst w1; cbv beta iota zeta.
  - destruct (map_getVersion h files); [reflexivity |]. now case_bool_decide.
  - now case_bool_decide.
Qed.

(** X7. isInstalled, getCurrent, list and fetchSum only read: whatever
    they return or throw, the file system is as it was; each adds its one
    system call (fetchSum its two requests) to the trace and nothing
    else. *)
Theorem readers_change_nothing (w : world) (version : string) :
  after (isInstalled h version) w = log (EvSys (SysStat (getPath h version))) w /\
  after (getCurrent h) w = log (EvSys (SysReadlink (CURRENT_LINK h))) w /\
  after (list' h) w = log (EvSys (SysReaddir (VERSIONS_DIR h))) w /\
  after (fetchSum h version) w =
    log (EvGet (getSigUrl version)) (log (EvGet (getSumsUrl version)) w) /\
  fs (after (isInstalled h version) w) = fs w /\
  fs (after (getCurrent h) w) = fs w /\
  fs (after (list' h) w) = fs w /\
  fs (after (fetchSum h version) w) = fs w.
Proof.
  unfold after.
  rewrite isInstalled_any_world, getCurrent_world, list'_world, fetchSum_world.
  repeat split.
Qed.
End ReadersProperties.

(** ** A successful install *)

Section InstalledProperties.
Variable h : host.

Lemma chmod_file (w w' : world) (p content : string) (mode mode' : N) :
  fs w !! p = Some (File content mode) ->
  fs_chmod p mode' w = (Ok tt, w') ->
  fs w' !! p = Some (File content mode') /\ faults w' = faults w.
Proof.
  intros Hfile. unfold fs_chmod, sys.
  destruct (faults w (SysChmod p mode')); [discriminate |].
  rewrite Hfile. intros [= <-]. cbn. split; [apply lookup_insert_eq | reflexivity].
Qed.

(** X8. install returns normally only for a verified artifact.  The
    archive came with status 200; the first signature of the manifest
    was verified, over the text as it was received, with the embedded
    key; the manifest lists for the archive of this host the SHA-256 of
    the chunks that had passed the hasher when the file finished; and,
    no link standing at the install path, the file there holds what the
    extractor made of the archive, with mode 0755, so that isInstalled
    then answers true. *)
Theorem successful_install_is_verified (w w' : world) (version : string) :
  Part001.install h version w = (Ok tt, w') ->
  exists (url zip sums sig : string) (body : list string) (fin : body_end)
         (signature : pgp_signature h) (keys : list (pgp_key h))
         (rest : list (result bool)),
    getExeUrl h version = Ok url /\
    net w url = Response 200 body fin /\
    received (net w (getSumsUrl version)) = Ok sums /\
    received (net w (getSigUrl version)) = Ok sig /\
    signature_read h sig = Ok signature /\
    key_readArmored h (publicKey h) = Ok keys /\
    openpgp_verify h sums signature keys = Ok (Ok true :: rest) /\
    getZipName h version = Ok zip /\
    parse_sums sums !! Some zip =
      Some (sha256_hex h (String.concat "" (hashed h (ex_init (ParseOne h)) body))) /\
    (no_link_at w [getPath h version] ->
     exists out : string,
       extract_all h (ex_init (ParseOne h)) body = Ok out /\
       fs w' !! getPath h version = Some (File out 493) /\
       (faults w (SysStat (getPath h version)) = None ->
        fst (isInstalled h version w') = Ok true)).
Proof.
  intros Hinstall.
  destruct (fs_mkdir_recursive (win h) (VERSIONS_DIR h) w) as [[[] | e] wm] eqn:Hmkdir.
  2: { revert Hinstall. unfold Part001.install, bind at 1. now rewrite Hmkdir. }
  destruct (getExeUrl h version) as [url | e] eqn:Hurl.
  2: { revert Hinstall. unfold Part001.install, bind at 1. rewrite Hmkdir.
       unfold bind at 1. unfold bind at 1, lift. now rewrite Hurl. }
  destruct (download h url (getPath h version) wm) as [[actualSum | e] w1] eqn:Hdl.
  2: { now rewrite (install_download_rejected h w wm w1 version url e) in Hinstall. }
  rewrite (install_after_download h w wm w1 version url actualSum Hmkdir Hurl Hdl)
    in Hinstall.
  destruct (download_resolved h _ _ _ _ _ Hdl) as (body & fin & Hresp & Hopen).
  destruct (download_200 h _ _ _ _ _ _ _ Hresp Hopen Hdl)
    as (Hnet & Hfaults & _ & mode & _ & Hok).
  destruct (Hok actualSum eq_refl) as (-> & out & Hout & Hfile).
  destruct (mkdir_spec _ _ _ _ Hmkdir) as (Hnet0 & Hfaults0 & _ & _).
  assert (Hsame : fst (fetchSum h version w1) = fst (fetchSum h version w)).
  { apply fetchSum_net. congruence. }
  pose proof (fetchSum_world h w1 version) as Hw2.
  destruct (fetchSum h version w1) as [[expectedSum | err] w2]; cbn [fst snd] in *.
  - destruct (bool_decide_reflect
                (Some (sha256_hex h
                         (String.concat "" (hashed h (ex_init (ParseOne h)) body)))
                 = expectedSum))
      as [<- | Hne].
    + destruct (fs_chmod (getPath h version) 493 w2) as [[[] | err] w3] eqn:Hchmod.
      * injection Hinstall as <-.
        assert (Hfile2 : fs w2 !! getPath h version = Some (File out mode))
          by (subst w2; exact Hfile).
        destruct (chmod_file _ _ _ _ _ _ Hfile2 Hchmod) as [Hfile3 Hfaults3].
        destruct (fetchSum_returned h w version _ (eq_sym Hsame))
          as (sums & sig & zip & signature & keys & rest
              & Hsums & Hsig & Hread & Hkeys & Hverify & Hzip & Hlisted).
        exists url, zip, sums, sig, body, fin, signature, keys, rest.
        split; [reflexivity |]. split; [congruence |].
        split; [exact Hsums |]. split; [exact Hsig |]. split; [exact Hread |].
        split; [exact Hkeys |]. split; [exact Hverify |]. split; [exact Hzip |].
        split; [now symmetry |].
        intros _. exists out. split; [exact Hout |]. split; [exact Hfile3 |].
        intros Hstat. rewrite (isInstalled_true h w3 version (File out 493));
          [reflexivity | | exact Hfile3].
        rewrite Hfaults3. subst w2. cbn. congruence.
      * apply (f_equal fst) in Hinstall. now apply cleanup_throws in Hinstall.
    + apply (f_equal fst) in Hinstall. now apply cleanup_throws in Hinstall.
  - apply (f_equal fst) in Hinstall. now apply cleanup_throws in Hinstall.
Qed.
End InstalledProperties.

(** ** The Current Pointer *)

Section PointerProperties.
Variable h : host.

Lemma setCurrent_links (w : world) (version : string) :
  faults w (SysUnlink (CURRENT_LINK h)) = None ->
  faults w (SysSymlink (getPath h version) (CURRENT_LINK h)) = None ->
  fs w !! CURRENT_LINK h <> Some Dir ->
  exists w' : world,
    Part001.setCurrent h (Some version) w = (Ok tt, w') /\
    fs w' = <[CURRENT_LINK h := Symlink (getPath h version)]> (fs w) /\
    faults w' = faults w /\
    trace w' = trace w ++ [EvSys (SysUnlink (CURRENT_LINK h));
                           EvSys (SysSymlink (getPath h version) (CURRENT_LINK h))].
Proof.
  intros Hunlink Hsymlink Hdir.
  unfold Part001.setCurrent, try_catch, bind, ret.
  destruct (fs w !! CURRENT_LINK h) as [n |] eqn:Hlink.
  - assert (Hn : n <> Dir) by congruence.
    rewrite (fs_unlink_present _ _ _ Hunlink Hlink Hn).
    unfold fs_symlink. rewrite sys_act by exact Hsymlink.
    cbn. rewrite lookup_delete_eq. cbn. eexists. split; [reflexivity |].
    cbn. rewrite insert_delete_eq. repeat split. now rewrite <- app_assoc.
  - rewrite (fs_unlink_absent _ _ Hunlink Hlink). cbn. settle_codes. cbn.
    unfold fs_symlink. rewrite sys_act by exact Hsymlink.
    cbn. rewrite Hlink. cbn. eexists. split; [reflexivity |].
    cbn. repeat split. now rewrite <- app_assoc.
Qed.

(** X9. use: for a version that is not installed, useCommand throws
    "Version <v> is not installed" and makes no call but the stat.  For
    an installed one (a version that is not empty and holds no separator
    and no line terminator, U+2028 and U+2029 included; no link standing
    at its path; no call refused) it replaces whatever link there was by
    a link to the version's path, and getCurrent then returns that
    version. *)
Theorem use_sets_current (w : world) (version : string) :
  (fst (isInstalled h version w) = Ok false ->
   Part001.useCommand h (Some version) w =
     (Throw (Part001.not_installed version),
      log (EvSys (SysStat (getPath h version))) w)) /\
  (fst (isInstalled h version w) = Ok true ->
   no_link_at w [getPath h version] ->
   version <> "" -> plain version -> sepfree (win h) version ->
   faults w (SysUnlink (CURRENT_LINK h)) = None ->
   faults w (SysSymlink (getPath h version) (CURRENT_LINK h)) = None ->
   faults w (SysReadlink (CURRENT_LINK h)) = None ->
   fs w !! CURRENT_LINK h <> Some Dir ->
   exists w' : world,
     Part001.useCommand h (Some version) w = (Ok tt, w') /\
     fs w' = <[CURRENT_LINK h := Symlink (getPath h version)]> (fs w) /\
     fst (getCurrent h w') = Ok (Some version)).
Proof.
  split.
  - intros Hno. apply isInstalled_world in Hno.
    unfold Part001.useCommand, Part001.argv_version, bind, ret, throw.
    now rewrite Hno.
  - intros Hyes _ Hne Hplain Hfree Hunlink Hsymlink Hreadlink Hdir.
    apply isInstalled_world in Hyes.
    unfold Part001.useCommand, Part001.argv_version, bind, ret.
    rewrite Hyes. cbn [negb].
    destruct (setCurrent_links (log (EvSys (SysStat (getPath h version))) w) version)
      as (w' & Hset & Hfs & Hfaults & _); try assumption.
    exists w'. split; [exact Hset |]. split; [exact Hfs |].
    rewrite (getCurrent_symlink h w' (getPath h version) version).
    + reflexivity.
    + now rewrite Hfaults.
    + rewrite Hfs. apply lookup_insert_eq.
    + unfold getVersion. rewrite getPath_basename by assumption.
      now rewrite re_exec_entry_name.
Qed.

(** X10. setCurrent(null): a link that is there is removed, a link that
    is not there is no error, and nothing else in the file system
    changes; getCurrent then returns null.  An unlink error other than
    ENOENT is thrown as it is. *)
Theorem setCurrent_null_clears (w : world) :
  (faults w (SysUnlink (CURRENT_LINK h)) = None ->
   fs w !! CURRENT_LINK h <> Some Dir ->
   exists w' : world,
     Part001.setCurrent h None w = (Ok tt, w') /\
     fs w' = delete (CURRENT_LINK h) (fs w) /\
     (faults w (SysReadlink (CURRENT_LINK h)) = None ->
      fst (getCurrent h w') = Ok None)) /\
  (forall code : string,
      faults w (SysUnlink (CURRENT_LINK h)) = Some code -> code <> ENOENT ->
      Part001.setCurrent h None w =
        (Throw (SystemError code), log (EvSys (SysUnlink (CURRENT_LINK h))) w)).
Proof.
  split.
  - intros Hunlink Hdir.
    destruct (fs w !! CURRENT_LINK h) as [n |] eqn:Hlink.
    + assert (Hn : n <> Dir) by congruence.
      rewrite (setCurrent_null_present h w n Hunlink Hlink Hn).
      eexists. split; [reflexivity |]. cbn. split; [reflexivity |].
      intros Hreadlink. rewrite getCurrent_absent; [reflexivity | assumption |].
      cbn. apply lookup_delete_eq.
    + rewrite (setCurrent_null_absent h w Hunlink Hlink).
      eexists. split; [reflexivity |]. cbn.
      split; [symmetry; now apply delete_id |].
      intros Hreadlink. now rewrite getCurrent_absent.
  - intros code Hfault Hcode.
    unfold Part001.setCurrent, try_catch, bind, ret, throw, fs_unlink.
    rewrite sys_fault with (code := code) by exact Hfault.
    rewrite bool_decide_eq_false_2 by (cbn; congruence). reflexivity.
Qed.

(** X11. uninstall of a version that is not the current one (no link, or
    a link to another version): the link is left alone and the version's
    file is deleted; nothing else changes, and isInstalled then answers
    false. *)
Theorem uninstall_other_version (w : world) (version content : string) (mode : N)
    (current : option string) :
  fst (getCurrent h w) = Ok current ->
  current <> Some version ->
  fs w !! getPath h version = Some (File content mode) ->
  faults w (SysUnlink (getPath h version)) = None ->
  exists w' : world,
    Part001.uninstall h version w = (Ok tt, w') /\
    fs w' = delete (getPath h version) (fs w) /\
    trace w' = trace w ++ [EvSys (SysReadlink (CURRENT_LINK h));
                           EvSys (SysUnlink (getPath h version))] /\
    (faults w (SysStat (getPath h version)) = None ->
     fst (isInstalled h version w') = Ok false).
Proof.
  intros Hcurrent Hother Hfile Hunlink.
  pose proof (getCurrent_world h w) as Hw.
  unfold Part001.uninstall, bind, ret.
  destruct (getCurrent h w) as [r w1]. cbn [fst snd] in *. subst r w1.
  rewrite bool_decide_eq_false_2 by assumption.
  rewrite (fs_unlink_present _ _ (File content mode)); try easy.
  eexists. split; [reflexivity |]. cbn. split; [reflexivity |].
  split; [now rewrite <- app_assoc |].
  intros Hstat. rewrite isInstalled_false; [reflexivity | exact Hstat |].
  cbn. apply lookup_delete_eq.
Qed.

(** X12. A link whose target has no version token (a link made by
    somebody else): getCurrent throws the TypeError of indexing null
    instead of returning null, and uninstall, which asks getCurrent
    first, throws it too and deletes nothing. *)
Theorem foreign_link_breaks_getCurrent (w : world) (target version : string) :
  faults w (SysReadlink (CURRENT_LINK h)) = None ->
  fs w !! CURRENT_LINK h = Some (Symlink target) ->
  re_exec (EXE_SUFFIX h) (path_basename (win h) target) = None ->
  fst (getCurrent h w) = Throw (TypeError "Cannot read property '1' of null") /\
  fst (Part001.uninstall h version w) = Throw (TypeError "Cannot read property '1' of null") /\
  fs (after (Part001.uninstall h version) w) = fs w.
Proof.
  intros Hreadlink Hlink Hnull.
  assert (Hthrown : getCurrent h w =
            (Throw (TypeError "Cannot read property '1' of null"),
             log (EvSys (SysReadlink (CURRENT_LINK h))) w)).
  { unfold getCurrent, try_catch, bind, lift, ret, throw.
    rewrite (fs_readlink_symlink _ _ _ Hreadlink Hlink).
    rewrite (getVersion_null h target Hnull).
    now rewrite bool_decide_eq_false_2 by (cbn; congruence). }
  unfold after, Part001.uninstall, bind. rewrite Hthrown. repeat split.
Qed.
End PointerProperties.

(** ** Footprints: the paths an operation can change *)

Lemma touches_only_ret {A} (ps : list string) (a : A) : touches_only ps (ret a).
Proof. now intros w q _. Qed.

Lemma touches_only_throw {A} (ps : list string) (e : exn) : touches_only ps (@throw A e).
Proof. now intros w q _. Qed.

Lemma touches_only_lift {A} (ps : list string) (r : result A) : touches_only ps (lift r).
Proof. now intros w q _. Qed.

Lemma touches_only_bind {A B} (ps : list string) (m : M A) (k : A -> M B) :
  touches_only ps m -> (forall a, touches_only ps (k a)) -> touches_only ps (bind m k).
Proof.
  intros Hm Hk w q Hq. unfold bind. specialize (Hm w q Hq).
  destruct (m w) as [[a | e] w1]; cbn in *; [| exact Hm].
  now rewrite (Hk a w1 q Hq).
Qed.

Lemma touches_only_try {A} (ps : list string) (body : M A) (handler : exn -> M A) :
  touches_only ps body -> (forall e, touches_only ps (handler e)) ->
  touches_only ps (try_catch body handler).
Proof.
  intros Hm Hk w q Hq. unfold try_catch. specialize (Hm w q Hq).
  destruct (body w) as [[a | e] w1]; cbn in *; [exact Hm |].
  now rewrite (Hk e w1 q Hq).
Qed.

Lemma touches_only_if {A} (ps : list string) (b : bool) (m1 m2 : M A) :
  touches_only ps m1 -> touches_only ps m2 -> touches_only ps (if b then m1 else m2).
Proof. now destruct b. Qed.

Lemma touches_only_sys {A} (ps : list string) (c : syscall) (p : string)
    (act : gmap string node -> result A * gmap string node) :
  p ∈ ps ->
  (forall m q, q <> p -> snd (act m) !! q = m !! q) ->
  touches_only ps (sys c act).
Proof.
  intros Hp Hact w q Hq. unfold sys.
  destruct (faults w c); [reflexivity |].
  specialize (Hact (fs w) q). destruct (act (fs w)) as [r m]. cbn in *.
  apply Hact. intros ->. contradiction.
Qed.

Lemma touches_only_reads {A} (ps : list string) (c : syscall)
    (act : gmap string node -> result A * gmap string node) :
  (forall m, snd (act m) = m) -> touches_only ps (sys c act).
Proof.
  intros Hact w q _. now rewrite sys_reads.
Qed.

Ltac one_path :=
  intros m q Hq;
  repeat match goal with
         | |- context [match ?x with _ => _ end] => destruct x
         end;
  cbn; rewrite ?lookup_insert_ne, ?lookup_delete_ne by congruence; reflexivity.

Lemma touches_open (ps : list string) (p : string) :
  p ∈ ps -> touches_only ps (fs_open_w p).
Proof. intros Hp. apply touches_only_sys with (p := p); [assumption | one_path]. Qed.

Lemma touches_write (ps : list string) (p data : string) :
  p ∈ ps -> touches_only ps (fs_write p data).
Proof. intros Hp. apply touches_only_sys with (p := p); [assumption | one_path]. Qed.

Lemma touches_chmod (ps : list string) (p : string) (mode : N) :
  p ∈ ps -> touches_only ps (fs_chmod p mode).
Proof. intros Hp. apply touches_only_sys with (p := p); [assumption | one_path]. Qed.

Lemma touches_unlink (ps : list string) (p : string) :
  p ∈ ps -> touches_only ps (fs_unlink p).
Proof. intros Hp. apply touches_only_sys with (p := p); [assumption | one_path]. Qed.

Lemma touches_symlink (ps : list string) (target p : string) :
  p ∈ ps -> touches_only ps (fs_symlink target p).
Proof. intros Hp. apply touches_only_sys with (p := p); [assumption | one_path]. Qed.

Section Footprints.
Variable h : host.

Lemma touches_readers (ps : list string) (version : string) :
  touches_only ps (isInstalled h version) /\
  touches_only ps (getCurrent h) /\
  touches_only ps (fetchSum h version).
Proof.
  repeat split; intros w q _.
  - now rewrite isInstalled_any_world.
  - now rewrite getCurrent_world.
  - now rewrite fetchSum_world.
Qed.

Lemma touches_pump (ps : list string) (p : string) (fin : body_end) (body : list string) :
  p ∈ ps ->
  forall (hashStream : sha256Stream) (unzipStream : ex_state (ParseOne h)),
    touches_only ps (pump h p hashStream unzipStream body fin).
Proof.
  intros Hp.
  assert (Hout : forall out, touches_only ps (write_out p out)).
  { intros out. unfold write_out. apply touches_only_if;
      [apply touches_only_ret | now apply touches_write]. }
  induction body as [| chunk rest IH]; intros hashStream unzipStream; cbn [pump].
  - destruct fin; [| apply touches_only_throw].
    destruct (ex_end _ _); [| apply touches_only_throw].
    apply touches_only_bind; [apply Hout | intros; apply touches_only_ret].
  - cbn [_transform].
    destruct (ex_write _ _ _) as [[[unzipStream' out] complete] |];
      [| apply touches_only_throw].
    apply touches_only_bind; [apply Hout | intros _].
    apply touches_only_if; [apply touches_only_lift | apply IH].
Qed.

Lemma touches_download (ps : list string) (url p : string) :
  p ∈ ps -> touches_only ps (download h url p).
Proof.
  intros Hp w q Hq. unfold download.
  destruct (net w url) as [e | status body fin]; [reflexivity |].
  destruct (status =? 200); [| reflexivity].
  assert (Hrun : touches_only ps
            (await fs_open_w p;
             pump h p sha256Stream_new (ex_init (ParseOne h)) body fin)).
  { apply touches_only_bind; [now apply touches_open | intros; now apply touches_pump]. }
  exact (Hrun (log (EvGet url) w) q Hq).
Qed.

(** What install does after the mkdir changes nothing but the install
    path. *)
Lemma touches_install_streams (version : string) :
  touches_only [getPath h version]
    (do actualSum <-
       (do url <- lift (getExeUrl h version); download h url (getPath h version));
     try_catch
       (do expectedSum <- fetchSum h version;
        if negb (bool_decide (Some actualSum = expectedSum))
        then throw (Error "Hash verification failed")
        else fs_chmod (getPath h version) 493)
       (fun err => await fs_unlink (getPath h version); throw err)).
Proof.
  apply touches_only_bind.
  - apply touches_only_bind; [apply touches_only_lift |].
    intros url. apply touches_download, list_elem_of_here.
  - intros actualSum. apply touches_only_try.
    + apply touches_only_bind; [apply (touches_readers _ version) |].
      intros expectedSum. apply touches_only_if;
        [apply touches_only_throw | apply touches_chmod, list_elem_of_here].
    + intros e. apply touches_only_bind;
        [apply touches_unlink, list_elem_of_here | intros; apply touches_only_throw].
Qed.

(** X13. Footprints.  However it ends, install changes nothing outside
    the install path but to make directories that were missing: the
    versions directory and those above it (no link standing at any of
    these paths).  setCurrent changes no path but the link; uninstall
    none but the link and the version's path. *)
Theorem footprints (version : string) :
  (forall (w : world) (q : string),
      no_link_at w (ancestors (win h) (VERSIONS_DIR h)
                    ++ [VERSIONS_DIR h; getPath h version]) ->
      q <> getPath h version ->
      fs (after (Part001.install h version) w) !! q = fs w !! q \/
      (q ∈ ancestors (win h) (VERSIONS_DIR h) ++ [VERSIONS_DIR h] /\
       fs w !! q = None /\
       fs (after (Part001.install h version) w) !! q = Some Dir)) /\
  (forall target : option string,
      touches_only [CURRENT_LINK h] (Part001.setCurrent h target)) /\
  touches_only [CURRENT_LINK h; getPath h version] (Part001.uninstall h version).
Proof.
  assert (Hset : forall ps target, CURRENT_LINK h ∈ ps ->
                   touches_only ps (Part001.setCurrent h target)).
  { intros ps target Hin. unfold Part001.setCurrent.
    apply touches_only_bind; [| intros _].
    - apply touches_only_try; [now apply touches_unlink |].
      intros e. apply touches_only_if; [apply touches_only_throw | apply touches_only_ret].
    - apply touches_only_try.
      + destruct target; [now apply touches_symlink | apply touches_only_ret].
      + intros e. apply touches_only_if; [apply touches_only_throw | apply touches_only_ret]. }
  split; [| split].
  - intros w q _ Hq.
    destruct (mkdir_frame (win h) w (VERSIONS_DIR h)) as (_ & _ & _ & Hkeep & Hnew).
    assert (Hrest : fs (after (Part001.install h version) w) !! q =
                    fs (after (fs_mkdir_recursive (win h) (VERSIONS_DIR h)) w) !! q).
    { unfold after, Part001.install. unfold bind at 1.
      destruct (fs_mkdir_recursive (win h) (VERSIONS_DIR h) w) as [[[] | e] w1];
        [| reflexivity].
      apply (touches_install_streams version w1 q).
      apply not_elem_of_cons. split; [assumption | apply not_elem_of_nil]. }
    rewrite Hrest. unfold after.
    destruct (fs w !! q) as [n |] eqn:Hw.
    + left. now apply Hkeep.
    + destruct (Hnew q Hw) as [Hnone | [Hin Hdir]]; [now left | now right].
  - intros target. apply Hset, list_elem_of_here.
  - unfold Part001.uninstall.
    apply touches_only_bind; [apply (touches_readers _ version) |].
    intros current. apply touches_only_bind.
    + apply touches_only_if; [apply Hset, list_elem_of_here | apply touches_only_ret].
    + intros _. apply touches_unlink, list_elem_of_further, list_elem_of_here.
Qed.
End Footprints.

(** ** The commands and the revision before *)

Section CommandProperties.
Variable h : host.

(** X14. The install command on a version that is not installed, once
    install has succeeded: when a current version is set the command
    returns; when none is set it calls useCommand without an argument,
    which throws the TypeError of reading [version] of undefined.  The
    version stays installed and no link is made. *)
Theorem installCommand_after_install (w w1 : world) (version : string) :
  fst (isInstalled h version w) = Ok false ->
  Part001.install h version (log (EvSys (SysStat (getPath h version))) w) = (Ok tt, w1) ->
  (fst (getCurrent h w1) = Ok None ->
   Part001.installCommand h (Some version) w =
     (Throw (TypeError "Cannot read property 'version' of undefined"),
      log (EvSys (SysReadlink (CURRENT_LINK h))) w1)) /\
  (forall current : string,
      fst (getCurrent h w1) = Ok (Some current) ->
      Part001.installCommand h (Some version) w =
        (Ok tt, log (EvSys (SysReadlink (CURRENT_LINK h))) w1)).
Proof.
  intros Hno Hinstall. apply isInstalled_world in Hno.
  pose proof (getCurrent_world h w1) as Hw.
  unfold Part001.installCommand, Part001.argv_version, bind, ret.
  rewrite Hno, Hinstall.
  destruct (getCurrent h w1) as [r w2]. cbn [fst snd] in *. subst w2.
  split.
  - intros ->. reflexivity.
  - intros current ->. reflexivity.
Qed.


(** X16. install of the revision before the latest deletes the file only
    when the digests differ.  When downloadSum throws (a manifest that
    cannot be fetched, a signature that is not valid), the error leaves
    install at once and the file just written, which nothing has
    verified, stays at the install path. *)
Theorem old_install_keeps_unverified_file (w wm w1 : world)
    (version url calculatedSum : string) (e : exn) :
  fst (isInstalled h version w) = Ok false ->
  fs_mkdir_recursive (win h) (VERSIONS_DIR h) (log (EvSys (SysStat (getPath h version))) w)
    = (Ok tt, wm) ->
  getExeUrl h version = Ok url ->
  download h url (getPath h version) wm = (Ok calculatedSum, w1) ->
  fst (fetchSum h version w1) = Throw e ->
  exists w' : world,
    Part000.install h version w = (Throw e, w') /\
    exists (content : string) (mode : N),
      fs w' !! getPath h version = Some (File content mode).
Proof.
  intros Hno Hmkdir Hurl Hdl Hthrown. apply isInstalled_world in Hno.
  destruct (download_resolved h _ _ _ _ _ Hdl) as (body & fin & Hresp & Hopen).
  destruct (download_200 h _ _ _ _ _ _ _ Hresp Hopen Hdl)
    as (_ & _ & _ & mode & [content Hfile] & _).
  pose proof (fetchSum_world h w1 version) as Hw2.
  unfold Part000.install, bind at 1. rewrite Hno.
  unfold bind at 1. rewrite Hmkdir.
  unfold bind at 1. unfold bind at 1, lift. rewrite Hurl, Hdl.
  unfold bind at 1.
  destruct (fetchSum h version w1) as [r w2]. cbn [fst snd] in *. subst r w2.
  eexists. split; [reflexivity |]. now exists content, mode.
Qed.
End CommandProperties.

(** * The properties at work on the example host *)

(** C9 on the example hosts: two versions listed in order; on the win32
    host the suffix is no part of the token; no versions directory; a
    directory that cannot be read. *)
Lemma list_sorted_tokens_witness :
  fst (list' Demo.host Demo.two_versions) = Ok ["0.12.1"; "1.0.0"] /\
  fst (list' Scenes.windows Scenes.windows_store) = Ok ["1.0.0"] /\
  fst (list' Demo.host Demo.fresh) = Ok [] /\
  fst (list' Demo.host Demo.readdir_refused) = Throw (SystemError "EACCES").
Proof.
  split; [| split; [| split]].
  - destruct (list_sorted_tokens Demo.host Demo.two_versions) as (_ & Hnames & _ & _).
    rewrite (Hnames ["1.0.0"; "0.12.1"]
               (after (fs_readdir false Demo.versions_dir) Demo.two_versions)).
    + vm_compute. reflexivity.
    + vm_compute. reflexivity.
    + repeat (constructor; [split; [discriminate | split; reflexivity] |]).
      constructor.
  - destruct (list_sorted_tokens Scenes.windows Scenes.windows_store)
      as (_ & Hnames & _ & _).
    rewrite (Hnames ["1.0.0"]
               (after (fs_readdir true (VERSIONS_DIR Scenes.windows))
                      Scenes.windows_store)).
    + vm_compute. reflexivity.
    + vm_compute. reflexivity.
    + repeat (constructor; [split; [discriminate | split; reflexivity] |]).
      constructor.
  - destruct (list_sorted_tokens Demo.host Demo.fresh) as (_ & _ & Habsent & _).
    apply Habsent; vm_compute; reflexivity.
  - destruct (list_sorted_tokens Demo.host Demo.readdir_refused) as (_ & _ & _ & Hother).
    rewrite (Hother (SystemError "EACCES")
               (after (fs_readdir false Demo.versions_dir) Demo.readdir_refused)).
    + reflexivity.
    + vm_compute. reflexivity.
    + discriminate.
Defined.

(** C10 on the example host: a README next to the installed version. *)
Lemma list_throws_on_foreign_file_witness :
  fst (list' Demo.host Demo.foreign_file) =
  Throw (TypeError "Cannot read property '1' of null").
Proof.
  rewrite (list_throws_on_foreign_file Demo.host Demo.foreign_file
             (after (fs_readdir false Demo.versions_dir) Demo.foreign_file)
             ["README"; "terraform_1.0.0"] "README").
  - reflexivity.
  - vm_compute. reflexivity.
  - apply list_elem_of_In. cbn. tauto.
  - vm_compute. reflexivity.
Defined.

(** C7 on the example host: symlink refused with EACCES, setCurrent
    returns normally and leaves no link. *)
Lemma setCurrent_swallows_link_errors_witness :
  fst (Part001.setCurrent Demo.host (Some "1.0.0") Demo.symlink_refused) = Ok tt /\
  fs (after (Part001.setCurrent Demo.host (Some "1.0.0")) Demo.symlink_refused)
    !! CURRENT_LINK Demo.host = None.
Proof.
  apply (setCurrent_swallows_link_errors Demo.host Demo.symlink_refused "1.0.0" "EACCES").
  - reflexivity.
  - vm_compute. discriminate.
  - reflexivity.
  - discriminate.
Defined.

(** C5, the counterexample.  uninstall of a version that is not
    installed fails with the ENOENT of unlink, not with the message of
    uninstallCommand; and when the link still points at the missing file,
    the link is removed before the failure. *)
Lemma uninstall_makes_no_installed_check :
  fst (isInstalled Demo.host "1.0.0" Demo.fresh) = Ok false /\
  fst (Part001.uninstall Demo.host "1.0.0" Demo.fresh) = Throw (SystemError "ENOENT") /\
  fst (isInstalled Demo.host "1.0.0" Demo.dangling) = Ok false /\
  fst (Part001.uninstall Demo.host "1.0.0" Demo.dangling) = Throw (SystemError "ENOENT") /\
  fs Demo.dangling !! Demo.current_link = Some (Symlink Demo.path_1_0_0) /\
  fs (after (Part001.uninstall Demo.host "1.0.0") Demo.dangling) !! Demo.current_link = None.
Proof. repeat split; vm_compute; reflexivity. Qed.

(** C5 on the example host: the command on a version that is absent;
    uninstall on the same, with no link, with a link to the absent
    version and with a link made by somebody else; uninstall of the
    current version. *)
Lemma uninstall_clears_pointer_then_deletes_witness :
  fst (Part001.uninstallCommand Demo.host (Some "1.0.0") Demo.fresh) =
    Throw (Error "Version 1.0.0 is not installed") /\
  fst (Part001.uninstall Demo.host "1.0.0" Demo.fresh) = Throw (SystemError ENOENT) /\
  fst (Part001.uninstall Demo.host "1.0.0" Demo.dangling) = Throw (SystemError ENOENT) /\
  fst (Part001.uninstall Demo.host "0.9.9" Scenes.foreign_link) =
    Throw (TypeError "Cannot read property '1' of null") /\
  exists w' : world,
    Part001.uninstall Demo.host "1.0.0" Demo.installed = (Ok tt, w') /\
    trace w' = [EvSys (SysReadlink Demo.current_link);
                EvSys (SysUnlink Demo.current_link);
                EvSys (SysUnlink Demo.path_1_0_0)] /\
    fst (getCurrent Demo.host w') = Ok None /\
    fs w' !! Demo.path_1_0_0 = None.
Proof.
  split; [| split; [| split; [| split]]].
  - destruct (uninstall_clears_pointer_then_deletes Demo.host Demo.fresh "1.0.0")
      as (Hcommand & _ & _ & _).
    destruct Hcommand as [Hthrown _]; [vm_compute; reflexivity | exact Hthrown].
  - destruct (uninstall_clears_pointer_then_deletes Demo.host Demo.fresh "1.0.0")
      as (_ & Habsent & _ & _).
    apply (Habsent None); vm_compute; reflexivity.
  - destruct (uninstall_clears_pointer_then_deletes Demo.host Demo.dangling "1.0.0")
      as (_ & Habsent & _ & _).
    apply (Habsent (Some "1.0.0")); vm_compute; reflexivity.
  - destruct (uninstall_clears_pointer_then_deletes Demo.host Scenes.foreign_link "0.9.9")
      as (_ & _ & Hthrows & _).
    rewrite (Hthrows (TypeError "Cannot read property '1' of null"));
      [reflexivity | vm_compute; reflexivity].
  - destruct (uninstall_clears_pointer_then_deletes Demo.host Demo.installed "1.0.0")
      as (_ & _ & _ & Hcurrent).
    destruct (Hcurrent Demo.path_1_0_0 "terraform" 493)
      as (w' & Hrun & Htrace & _ & Hnull & Hgone); try (vm_compute; reflexivity).
    exists w'. repeat split; assumption.
Defined.

(** C8 on the example host: the server answers 404. *)
Lemma no_file_until_status_200_witness :
  fst (Part001.install Demo.host "1.0.0" Demo.archive_missing) =
    Throw (Error "Download failed with status 404") /\
  trace (after (Part001.install Demo.host "1.0.0") Demo.archive_missing) =
    [EvSys (SysMkdir Demo.versions_dir); EvGet Demo.archive_url; EvAbort Demo.archive_url] /\
  fs (after (Part001.install Demo.host "1.0.0") Demo.archive_missing)
    !! Demo.path_1_0_0 = None.
Proof.
  destruct (no_file_until_status_200 Demo.host Demo.archive_missing
              (Demo.after_mkdir Demo.archive_missing) "1.0.0" Demo.archive_url)
    as (Hrejected & _ & _).
  - vm_compute. reflexivity.
  - reflexivity.
  - unfold after.
    rewrite (Hrejected 404 ["Not Found"] BodyEnd); [| reflexivity | discriminate].
    repeat split; vm_compute; reflexivity.
Defined.

(** C1 on the example host: the connection is reset after the first
    chunk; the second chunk of the archive is corrupt.  Either way the
    bytes extracted so far stay in the file. *)
Lemma download_failure_leaves_file_witness :
  (fst (Part001.install Demo.host "1.0.0" Demo.connection_reset) =
     Throw (SystemError "ECONNRESET") /\
   fs (after (Part001.install Demo.host "1.0.0") Demo.connection_reset)
     !! Demo.path_1_0_0 = Some (File "terra" 438)) /\
  (fst (Part001.install Demo.host "1.0.0" Demo.archive_corrupt) =
     Throw (Error "invalid stored block lengths") /\
   fs (after (Part001.install Demo.host "1.0.0") Demo.archive_corrupt)
     !! Demo.path_1_0_0 = Some (File "terra" 438)).
Proof.
  split.
  - destruct (download_failure_leaves_file Demo.host Demo.connection_reset
                (Demo.after_mkdir Demo.connection_reset)
                (after (download Demo.host Demo.archive_url Demo.path_1_0_0)
                       (Demo.after_mkdir Demo.connection_reset))
                "1.0.0" Demo.archive_url ["PKterra"]
                (BodyError (SystemError "ECONNRESET")) (SystemError "ECONNRESET"))
      as (Hthrown & _ & _); try (vm_compute; reflexivity).
    unfold after at 1. rewrite Hthrown. split; vm_compute; reflexivity.
  - destruct (download_failure_leaves_file Demo.host Demo.archive_corrupt
                (Demo.after_mkdir Demo.archive_corrupt)
                (after (download Demo.host Demo.archive_url Demo.path_1_0_0)
                       (Demo.after_mkdir Demo.archive_corrupt))
                "1.0.0" Demo.archive_url ["PKterra"; "!form"] BodyEnd
                (Error "invalid stored block lengths"))
      as (Hthrown & _ & _); try (vm_compute; reflexivity).
    unfold after at 1. rewrite Hthrown. split; vm_compute; reflexivity.
Defined.

(** C2 at the failing input: the directory of the archive arrives in a
    chunk of its own.  On the example host the file has finished before
    that chunk is hashed: the digest is that of the first chunk and
    install fails, although the manifest lists the digest of the archive
    as it was sent.  On a host where the chunk is hashed in time the
    same release installs, as does the release whose archive ends with
    the entry. *)
Lemma digest_is_read_at_finish_witness :
  hashed Demo.host (ex_init (ParseOne Demo.host)) ["PKterraform;"; "CENTRALDIR"] =
    ["PKterraform;"] /\
  fst (fetchSum Demo.host "1.0.0" Demo.directory_apart) =
    Ok (Some (sha256_hex Demo.host (String.concat "" ["PKterraform;"; "CENTRALDIR"]))) /\
  (exists w' : world,
      Part001.install Demo.host "1.0.0" Demo.directory_apart =
        (Throw (Error "Hash verification failed"), w') /\
      fs w' !! Demo.path_1_0_0 = None) /\
  fst (Part001.install Scenes.patient "1.0.0" Demo.directory_apart) = Ok tt /\
  fst (Part001.install Demo.host "1.0.0" Demo.fresh) = Ok tt.
Proof.
  split; [reflexivity |]. split; [vm_compute; reflexivity |]. split; [| split].
  - destruct (digest_is_read_at_finish Demo.host Demo.directory_apart
                (Demo.after_mkdir Demo.directory_apart)
                (after (download Demo.host Demo.archive_url Demo.path_1_0_0)
                       (Demo.after_mkdir Demo.directory_apart))
                "1.0.0" Demo.archive_url "sha256(PKterraform;)"
                ["PKterraform;"; "CENTRALDIR"] BodyEnd)
      as (_ & _ & _ & _ & _ & _ & Hfails); try (vm_compute; reflexivity).
    apply (Hfails (Some "sha256(PKterraform;CENTRALDIR)"));
      [vm_compute; reflexivity | discriminate | reflexivity].
  - destruct (digest_is_read_at_finish Scenes.patient Demo.directory_apart
                (Demo.after_mkdir Demo.directory_apart)
                (after (download Scenes.patient Demo.archive_url Demo.path_1_0_0)
                       (Demo.after_mkdir Demo.directory_apart))
                "1.0.0" Demo.archive_url "sha256(PKterraform;CENTRALDIR)"
                ["PKterraform;"; "CENTRALDIR"] BodyEnd)
      as (_ & _ & _ & _ & _ & Hinstalls & _); [vm_compute; reflexivity .. |].
    apply Hinstalls; vm_compute; reflexivity.
  - destruct (digest_is_read_at_finish Demo.host Demo.fresh (Demo.after_mkdir Demo.fresh)
                (after (download Demo.host Demo.archive_url Demo.path_1_0_0)
                       (Demo.after_mkdir Demo.fresh))
                "1.0.0" Demo.archive_url "sha256(PKterraform)" ["PKterra"; "form"] BodyEnd)
      as (_ & _ & _ & _ & _ & Hinstalls & _); [vm_compute; reflexivity .. |].
    apply Hinstalls; vm_compute; reflexivity.
Defined.

(** C3 on the example hosts: a manifest that lists the right digest but
    is signed by somebody else; a manifest altered after it was signed,
    which lists the digest of the archive sent with it; a key block
    without a key. *)
Lemma signature_verified_before_comparison_witness :
  fst (fetchSum Demo.host "1.0.0" Demo.forged) =
    Throw (Error "Signature verification failed") /\
  fst (fetchSum Demo.host "1.0.0" Demo.altered) =
    Throw (Error "Signed digest did not match") /\
  fst (fetchSum Scenes.keyless "1.0.0" Demo.fresh) =
    Throw (TypeError "Cannot read property 'verified' of undefined") /\
  (exists w' : world,
      Part001.install Demo.host "1.0.0" Demo.forged =
        (Throw (Error "Signature verification failed"), w') /\
      fs w' !! Demo.path_1_0_0 = None) /\
  (exists w' : world,
      Part001.install Demo.host "1.0.0" Demo.altered =
        (Throw (Error "Signed digest did not match"), w') /\
      fs w' !! Demo.path_1_0_0 = None).
Proof.
  destruct (signature_verified_before_comparison Demo.host Demo.forged "1.0.0")
    as (_ & Hforged & Hinstall_forged).
  destruct (Hforged Demo.manifest ("mallory:" +:+ Demo.manifest)
              ("mallory:" +:+ Demo.manifest) ["hashicorp"])
    as (Hfalse & _); try (vm_compute; reflexivity).
  destruct (signature_verified_before_comparison Demo.host Demo.altered "1.0.0")
    as (_ & Haltered & Hinstall_altered).
  destruct (Haltered Demo.altered_manifest ("hashicorp:" +:+ Demo.manifest)
              ("hashicorp:" +:+ Demo.manifest) ["hashicorp"])
    as (_ & Hrejected & _); try (vm_compute; reflexivity).
  destruct (signature_verified_before_comparison Scenes.keyless Demo.fresh "1.0.0")
    as (_ & Hkeyless & _).
  destruct (Hkeyless Demo.manifest ("hashicorp:" +:+ Demo.manifest)
              ("hashicorp:" +:+ Demo.manifest) [])
    as (_ & _ & _ & Hnone); try (vm_compute; reflexivity).
  split; [apply (Hfalse []); vm_compute; reflexivity |].
  split; [apply (Hrejected (Error "Signed digest did not match") []);
          vm_compute; reflexivity |].
  split; [apply Hnone; vm_compute; reflexivity |].
  split.
  - apply (Hinstall_forged (Error "Signature verification failed")
             (Demo.after_mkdir Demo.forged)
             (after (download Demo.host Demo.archive_url Demo.path_1_0_0)
                    (Demo.after_mkdir Demo.forged))
             Demo.archive_url "sha256(PKterraform)"); vm_compute; reflexivity.
  - apply (Hinstall_altered (Error "Signed digest did not match")
             (Demo.after_mkdir Demo.altered)
             (after (download Demo.host Demo.archive_url Demo.path_1_0_0)
                    (Demo.after_mkdir Demo.altered))
             Demo.archive_url "sha256(PKmalware)"); vm_compute; reflexivity.
Defined.

(** C4, the counterexample.  A valid manifest without the archive name:
    fetchSum returns undefined and throws nothing. *)
Lemma fetchSum_returns_undefined :
  getZipName Demo.host "1.0.0" = Ok "terraform_1.0.0_linux_amd64.zip" /\
  parse_sums Demo.darwin_manifest !! Some "terraform_1.0.0_linux_amd64.zip" = None /\
  fst (fetchSum Demo.host "1.0.0" Demo.other_platform_only) = Ok None.
Proof. repeat split; vm_compute; reflexivity. Qed.

(** C4 on the example host: the signed manifest lists another platform
    only. *)
Lemma fetchSum_missing_name_is_undefined_witness :
  fst (fetchSum Demo.host "1.0.0" Demo.other_platform_only) = Ok None /\
  exists w' : world,
    Part001.install Demo.host "1.0.0" Demo.other_platform_only =
      (Throw (Error "Hash verification failed"), w') /\
    fs w' !! Demo.path_1_0_0 = None.
Proof.
  destruct (fetchSum_missing_name_is_undefined Demo.host Demo.other_platform_only "1.0.0"
              Demo.darwin_manifest ("hashicorp:" +:+ Demo.darwin_manifest)
              "terraform_1.0.0_linux_amd64.zip"
              ("hashicorp:" +:+ Demo.darwin_manifest) ["hashicorp"] [])
    as (Hundefined & Hinstall); try (vm_compute; reflexivity).
  split; [exact Hundefined |].
  apply (Hinstall (Demo.after_mkdir Demo.other_platform_only)
           (after (download Demo.host Demo.archive_url Demo.path_1_0_0)
                  (Demo.after_mkdir Demo.other_platform_only))
           Demo.archive_url "sha256(PKterraform)"); vm_compute; reflexivity.
Defined.

(** C6, the counterexample.  install of the latest revision, called on a
    version that is installed: the archive is requested and the file
    written again. *)
Lemma install_downloads_again :
  fst (isInstalled Demo.host "1.0.0" Demo.patched) = Ok true /\
  fs Demo.patched !! Demo.path_1_0_0 = Some (File "patched locally" 493) /\
  fst (Part001.install Demo.host "1.0.0" Demo.patched) = Ok tt /\
  trace (after (Part001.install Demo.host "1.0.0") Demo.patched) =
    [EvSys (SysMkdir Demo.versions_dir); EvGet Demo.archive_url;
     EvSys (SysOpen Demo.path_1_0_0);
     EvSys (SysWrite Demo.path_1_0_0); EvSys (SysWrite Demo.path_1_0_0);
     EvGet Demo.sums_url; EvGet Demo.sig_url;
     EvSys (SysChmod Demo.path_1_0_0 493)] /\
  fs (after (Part001.install Demo.host "1.0.0") Demo.patched) !! Demo.path_1_0_0 =
    Some (File "terraform" 493).
Proof. repeat split; vm_compute; reflexivity. Qed.

(** C6 on the example host: the installed file, edited since, is left
    alone by the guarded entry points. *)
Lemma guarded_install_is_idempotent_witness :
  Part001.installCommand Demo.host (Some "1.0.0") Demo.patched =
    (Ok tt, log (EvSys (SysStat (getPath Demo.host "1.0.0"))) Demo.patched) /\
  Part000.install Demo.host "1.0.0" Demo.patched =
    (Ok tt, log (EvSys (SysStat (getPath Demo.host "1.0.0"))) Demo.patched) /\
  fs (log (EvSys (SysStat (getPath Demo.host "1.0.0"))) Demo.patched) = fs Demo.patched.
Proof.
  apply (guarded_install_is_idempotent Demo.host Demo.patched "1.0.0").
  vm_compute. reflexivity.
Defined.

(** * The further properties at work on the example hosts *)

(** X1 on hosts the program does not know: SunOS on a processor it
    knows, SunOS on one it does not know either (the platform is named),
    Linux on a processor it does not know. *)
Lemma install_on_unsupported_host_witness :
  fst (Part001.install Scenes.solaris "1.0.0" Demo.fresh) =
    Throw (Error "Unsupported platform: sunos") /\
  trace (after (Part001.install Scenes.solaris "1.0.0") Demo.fresh) =
    [EvSys (SysMkdir Demo.versions_dir)] /\
  fst (Part001.install Scenes.sparc "1.0.0" Demo.fresh) =
    Throw (Error "Unsupported platform: sunos") /\
  fst (Part001.install Scenes.arm "1.0.0" Demo.fresh) =
    Throw (Error "Unsupported architecture: arm64").
Proof.
  destruct (install_on_unsupported_host Scenes.solaris Demo.fresh
              (after (fs_mkdir_recursive false Demo.versions_dir) Demo.fresh) "1.0.0"
              (Error "Unsupported platform: sunos"))
    as (Hsolaris & Htrace & _); try (vm_compute; reflexivity).
  destruct (install_on_unsupported_host Scenes.sparc Demo.fresh
              (after (fs_mkdir_recursive false Demo.versions_dir) Demo.fresh) "1.0.0"
              (Error "Unsupported platform: sunos"))
    as (Hsparc & _ & _); try (vm_compute; reflexivity).
  destruct (install_on_unsupported_host Scenes.arm Demo.fresh
              (after (fs_mkdir_recursive false Demo.versions_dir) Demo.fresh) "1.0.0"
              (Error "Unsupported architecture: arm64"))
    as (Harm & _ & _); try (vm_compute; reflexivity).
  unfold after at 1. rewrite Hsolaris, Hsparc, Harm.
  split; [reflexivity |]. split; [exact Htrace |]. split; reflexivity.
Defined.

(** X2 on the example host. *)
Lemma getVersion_getPath_witness :
  getVersion Demo.host (getPath Demo.host "1.0.0") = Ok "1.0.0".
Proof.
  apply (getVersion_getPath Demo.host "1.0.0"); [discriminate | reflexivity | reflexivity].
Defined.

(** X3 on the example host: the two versions listed. *)
Lemma tokens_are_plain_witness :
  Forall (fun v => v <> "" /\ plain v) ["0.12.1"; "1.0.0"].
Proof.
  apply (proj2 (proj2 (tokens_are_plain Demo.host Demo.two_versions))).
  vm_compute. reflexivity.
Defined.

(** X4: the same archive cut in two ways. *)
Lemma hasher_is_transparent_witness :
  digest Demo.host (fst (feed sha256Stream_new ["PK"; "terraform"])) =
  digest Demo.host (fst (feed sha256Stream_new ["PKterra"; "form"])).
Proof.
  apply (proj2 (proj2 (hasher_is_transparent Demo.host ["PKterra"; "form"]))).
  reflexivity.
Defined.

(** X5: the last row of a name counts; a name not listed is absent. *)
Lemma parse_sums_render_witness :
  parse_sums (render_sums Scenes.rows) !! Some "a.zip" = Some "ccc" /\
  parse_sums (render_sums Scenes.rows) !! Some "c.zip" = None.
Proof.
  assert (Hrows : Forall (fun row => token row.1 /\ token row.2) Scenes.rows).
  { repeat constructor. }
  destruct (parse_sums_render Scenes.rows Hrows) as [Hlast Habsent]. split.
  - apply (Hlast [("aaa", "a.zip"); ("bbb", "b.zip")] [] "ccc" "a.zip"); [reflexivity |].
    apply not_elem_of_nil.
  - apply Habsent. intros Hin. cbn in Hin.
    repeat (apply elem_of_cons in Hin as [Hin | Hin]; [discriminate Hin |]).
    now apply not_elem_of_nil in Hin.
Defined.

(** X6 on the example host: the digest the release lists. *)
Lemma fetchSum_returns_listed_digest_witness :
  fst (fetchSum Demo.host "1.0.0" Demo.fresh) = Ok (Some "sha256(PKterraform)").
Proof.
  apply (fetchSum_returns_listed_digest Demo.host Demo.fresh "1.0.0"
           ("hashicorp:" +:+ Demo.manifest) "terraform_1.0.0_linux_amd64.zip"
           "sha256(PKterraform)"
           [("sha256(PKterraform)", "terraform_1.0.0_linux_amd64.zip")] [] []
           ("hashicorp:" +:+ Demo.manifest) ["hashicorp"] []);
    try (vm_compute; reflexivity).
  - repeat constructor.
  - apply not_elem_of_nil.
Defined.

(** X8 on the example host: the release installs. *)
Lemma successful_install_is_verified_witness :
  exists (zip sums : string) (body : list string) (out : string),
    parse_sums sums !! Some zip =
      Some (sha256_hex Demo.host
              (String.concat "" (hashed Demo.host (ex_init (ParseOne Demo.host)) body))) /\
    extract_all Demo.host (ex_init (ParseOne Demo.host)) body = Ok out /\
    fs (after (Part001.install Demo.host "1.0.0") Demo.fresh)
      !! getPath Demo.host "1.0.0" = Some (File out 493) /\
    fst (isInstalled Demo.host "1.0.0"
           (after (Part001.install Demo.host "1.0.0") Demo.fresh)) = Ok true.
Proof.
  destruct (successful_install_is_verified Demo.host Demo.fresh
              (after (Part001.install Demo.host "1.0.0") Demo.fresh) "1.0.0")
    as (url & zip & sums & sig & body & fin & signature & keys & rest
        & _ & _ & _ & _ & _ & _ & _ & _ & Hlisted & Hfile).
  - vm_compute. reflexivity.
  - destruct Hfile as (out & Hout & Hfs & Hinstalled).
    + intros p target Hin. apply list_elem_of_singleton in Hin. subst p.
      vm_compute. discriminate.
    + exists zip, sums, body, out.
      split; [exact Hlisted |]. split; [exact Hout |]. split; [exact Hfs |].
      apply Hinstalled. reflexivity.
Defined.

(** X9 on the example host: use of the older of two versions; use of a
    version that is not there. *)
Lemma use_sets_current_witness :
  (exists w' : world,
      Part001.useCommand Demo.host (Some "0.12.1") Demo.two_versions = (Ok tt, w') /\
      fst (getCurrent Demo.host w') = Ok (Some "0.12.1")) /\
  fst (Part001.useCommand Demo.host (Some "0.12.1") Demo.fresh) =
    Throw (Error "Version 0.12.1 is not installed").
Proof.
  split.
  - destruct (proj2 (use_sets_current Demo.host Demo.two_versions "0.12.1"))
      as (w' & Hrun & _ & Hcurrent);
      try (vm_compute; reflexivity); try discriminate.
    + intros p target Hin. apply list_elem_of_singleton in Hin. subst p.
      vm_compute. discriminate.
    + now exists w'.
  - rewrite (proj1 (use_sets_current Demo.host Demo.fresh "0.12.1"));
      [reflexivity | vm_compute; reflexivity].
Defined.

(** X10 on the example host: clearing the link of the installed world. *)
Lemma setCurrent_null_clears_witness :
  exists w' : world,
    Part001.setCurrent Demo.host None Demo.installed = (Ok tt, w') /\
    fs w' !! Demo.path_1_0_0 = Some (File "terraform" 493) /\
    fst (getCurrent Demo.host w') = Ok None.
Proof.
  destruct (proj1 (setCurrent_null_clears Demo.host Demo.installed))
    as (w' & Hrun & Hfs & Hcurrent).
  - reflexivity.
  - vm_compute. discriminate.
  - exists w'. split; [exact Hrun |]. split.
    + rewrite Hfs. vm_compute. reflexivity.
    + apply Hcurrent. reflexivity.
Defined.

(** X11 on the example host: the older version goes, the link to 1.0.0
    stays. *)
Lemma uninstall_other_version_witness :
  exists w' : world,
    Part001.uninstall Demo.host "0.12.1" Demo.two_versions = (Ok tt, w') /\
    fs w' !! Demo.current_link = Some (Symlink Demo.path_1_0_0) /\
    fs w' !! "/home/user/.tfvm/versions/terraform_0.12.1" = None.
Proof.
  destruct (uninstall_other_version Demo.host Demo.two_versions "0.12.1" "old" 493
              (Some "1.0.0"))
    as (w' & Hrun & Hfs & _ & _); try (vm_compute; reflexivity); try discriminate.
  exists w'. split; [exact Hrun |]. rewrite Hfs. split; vm_compute; reflexivity.
Defined.

(** X12 on the example host: a link to /usr/local/bin/tf. *)
Lemma foreign_link_breaks_getCurrent_witness :
  fst (getCurrent Demo.host Scenes.foreign_link) =
    Throw (TypeError "Cannot read property '1' of null") /\
  fst (Part001.uninstall Demo.host "1.0.0" Scenes.foreign_link) =
    Throw (TypeError "Cannot read property '1' of null") /\
  fs (after (Part001.uninstall Demo.host "1.0.0") Scenes.foreign_link) =
    fs Scenes.foreign_link.
Proof.
  apply (foreign_link_breaks_getCurrent Demo.host Scenes.foreign_link
           "/usr/local/bin/tf" "1.0.0"); vm_compute; reflexivity.
Defined.

(** X13 on the example host, in a home where the tool has never run:
    install makes the directory of the tool and leaves the home as it
    was. *)
Lemma footprints_witness :
  fs Demo.first_run !! "/home/user/.tfvm" = None /\
  fs (after (Part001.install Demo.host "1.0.0") Demo.first_run) !! "/home/user/.tfvm" =
    Some Dir /\
  fs (after (Part001.install Demo.host "1.0.0") Demo.first_run) !! "/home/user" =
    fs Demo.first_run !! "/home/user".
Proof.
  assert (Hlinks : no_link_at Demo.first_run
            (ancestors (win Demo.host) (VERSIONS_DIR Demo.host)
             ++ [VERSIONS_DIR Demo.host; getPath Demo.host "1.0.0"])).
  { intros p target Hin. vm_compute in Hin.
    repeat (apply elem_of_cons in Hin as [-> | Hin]; [vm_compute; discriminate |]).
    now apply not_elem_of_nil in Hin. }
  split; [reflexivity |]. split.
  - destruct (proj1 (footprints Demo.host "1.0.0") Demo.first_run "/home/user/.tfvm" Hlinks)
      as [Hsame | (_ & _ & Hmade)].
    + vm_compute. discriminate.
    + vm_compute. reflexivity.
    + exact Hmade.
  - destruct (proj1 (footprints Demo.host "1.0.0") Demo.first_run "/home/user" Hlinks)
      as [Hsame | (_ & Hnone & _)].
    + vm_compute. discriminate.
    + exact Hsame.
    + vm_compute in Hnone. discriminate.
Defined.

(** X14 on the example host: the first install of a fresh store. *)
Lemma installCommand_after_install_witness :
  fst (Part001.installCommand Demo.host (Some "1.0.0") Demo.fresh) =
    Throw (TypeError "Cannot read property 'version' of undefined") /\
  fs (after (Part001.installCommand Demo.host (Some "1.0.0")) Demo.fresh)
    !! Demo.path_1_0_0 = Some (File "terraform" 493) /\
  fs (after (Part001.installCommand Demo.host (Some "1.0.0")) Demo.fresh)
    !! Demo.current_link = None.
Proof.
  destruct (installCommand_after_install Demo.host Demo.fresh
              (after (Part001.install Demo.host "1.0.0")
                     (log (EvSys (SysStat Demo.path_1_0_0)) Demo.fresh))
              "1.0.0")
    as [Hnone _]; try (vm_compute; reflexivity).
  unfold after at 1 2. rewrite Hnone by (vm_compute; reflexivity).
  repeat split; vm_compute; reflexivity.
Defined.


(** X16 on the example host: the manifest signed by somebody else. *)
Lemma old_install_keeps_unverified_file_witness :
  exists w' : world,
    Part000.install Demo.host "1.0.0" Demo.forged =
      (Throw (Error "Signature verification failed"), w') /\
    exists (content : string) (mode : N),
      fs w' !! getPath Demo.host "1.0.0" = Some (File content mode).
Proof.
  apply (old_install_keeps_unverified_file Demo.host Demo.forged
           (after (fs_mkdir_recursive false Demo.versions_dir)
                  (log (EvSys (SysStat Demo.path_1_0_0)) Demo.forged))
           (after (download Demo.host Demo.archive_url Demo.path_1_0_0)
                  (after (fs_mkdir_recursive false Demo.versions_dir)
                         (log (EvSys (SysStat Demo.path_1_0_0)) Demo.forged)))
           "1.0.0" Demo.archive_url "sha256(PKterraform)");
    vm_compute; reflexivity.
Defined.
